(** * Sw.js: the offline-first service worker of the calculator PWA

    A shallow embedding of [src/Sw.js].  The worker's handlers are promise
    chains over two pieces of host state, the origin's cache storage
    ([caches]) and [localStorage]; they are embedded as computations in a
    small promise monad that threads that state, records the observable
    calls made to the host (network requests, cache deletions, client
    claiming, ...) and settles either fulfilled or rejected.

    Conventions.
    - The network is an oracle of the host environment: [fetch] either
      resolves with a response or rejects.
    - The cache storage is the ordered list of named caches of the origin
      (oldest first), each cache an ordered list of request/response pairs;
      [caches.match] walks the caches in creation order, [cache.put]
      replaces the entries with the same URL and appends.
    - Cache lookups and deletions do not fail; [cache.put] and
      [cache.addAll] reject what the Cache API refuses (a 206 response, a
      response with [Vary: *], a request that is not an http(s) GET), and
      lookups follow the Vary header of the stored response.
    - [localStorage] is a global the scope may lack, as a service worker
      scope does; naming it there throws a ReferenceError.
    - [console.log] diagnostics are not recorded, [console.error] is.
    - A promise that the source creates and does not return (the write
      after a successful fetch, the cache-info reply) is run by [detach]:
      its effects land in the resulting state, its outcome is dropped.
    - The push and notification-click listeners make a single call to the
      host each; they are embedded as the functions that compute that
      call. *)

From Stdlib Require Import String Ascii ZArith.
From stdpp Require Import base option list gmap strings.

Local Open Scope string_scope.
Local Open Scope list_scope.
Local Open Scope Z_scope.

(** ** JavaScript string operations used by the worker *)

Module JsString.

(** [s.startsWith(p)] *)
Fixpoint startsWith (p s : string) : bool :=
  match p, s with
  | EmptyString, _ => true
  | String a p', String b s' => Ascii.eqb a b && startsWith p' s'
  | String _ _, EmptyString => false
  end.

(** [s.includes(p)] *)
Fixpoint includes (p s : string) : bool :=
  startsWith p s ||
  match s with
  | EmptyString => false
  | String _ s' => includes p s'
  end.

(** The part of [s] before the first occurrence of [c] (all of [s] when
    [c] does not occur). *)
Fixpoint before (c : ascii) (s : string) : string :=
  match s with
  | EmptyString => EmptyString
  | String a s' => if Ascii.eqb a c then EmptyString else String a (before c s')
  end.

(** Declarative readings of the two tests. *)
Definition HasPrefix (p s : string) : Prop := exists r, s = p +:+ r.
Definition Contains (p s : string) : Prop := exists a b, s = a +:+ p +:+ b.

End JsString.

(** ** Requests, responses and URLs *)

(** [vary] lists the header names of the response's Vary header, in lower
    case ([["*"]] for [Vary: *], empty when the response has no such
    header): the one response header the Cache API looks at. *)
Record Response := mkResponse {
  status : Z;
  statusText : string;
  type : string;
  vary : list string;
  body : string
}.

(** [headers] is the request's header map, keyed by lower-case header name;
    [headers.get(name)] is the lookup and yields [None] for JavaScript's
    [null]. *)
Record Request := mkRequest {
  method : string;
  url : string;
  headers : gmap string string;
  destination : string
}.

(** [new Response(body)] and [new Response(body, {status, statusText})]. *)
Definition new_Response (b : string) : Response :=
  {| status := 200; statusText := ""; type := "default"; vary := []; body := b |}.

Definition new_Response_init (b : string) (st : Z) (txt : string) : Response :=
  {| status := st; statusText := txt; type := "default"; vary := []; body := b |}.

Module Url.

(** A URL without its fragment, and without its query as well when
    [ignoreSearch] is set: the identity under which the cache compares
    requests. *)
Definition key (ignoreSearch : bool) (u : string) : string :=
  let u' := JsString.before "#" u in
  if ignoreSearch then JsString.before "?" u' else u'.

(** Resolution of the worker's relative paths (['./'], ['./name'],
    ['name']) against the directory [dir] the worker script is served
    from. *)
Definition resolve (dir rel : string) : string :=
  match rel with
  | String "." (String "/" rest) => dir +:+ rest
  | _ => dir +:+ rel
  end.

End Url.

(** ** Caches *)

Definition Cache := list (Request * Response).

Module CacheOps.

(** The Vary rule of the Cache API: a stored entry answers a query only if,
    for every header its response varies on, the query carries the value
    the stored request carried; an entry whose response has [Vary: *]
    answers no query. *)
Definition vary_star (response : Response) : bool :=
  existsb (String.eqb "*") (vary response).

Definition same_header (name : string) (query cached : Request) : bool :=
  match headers query !! name, headers cached !! name with
  | Some a, Some b => String.eqb a b
  | None, None => true
  | _, _ => false
  end.

Definition vary_ok (query : Request) (entry : Request * Response) : bool :=
  negb (vary_star (snd entry)) &&
  forallb (fun name => same_header name query (fst entry)) (vary (snd entry)).

(** Whether a stored entry answers a query: same URL (query string ignored
    on demand) and the Vary rule. *)
Definition matches (ignoreSearch : bool) (query : Request) (entry : Request * Response) : bool :=
  String.eqb (Url.key ignoreSearch (url query)) (Url.key ignoreSearch (url (fst entry)))
  && vary_ok query entry.

(** [cache.match(request, {ignoreSearch})]: the first matching entry. *)
Fixpoint match_ (ignoreSearch : bool) (c : Cache) (query : Request) : option Response :=
  match c with
  | [] => None
  | e :: c' =>
      if matches ignoreSearch query e then Some (snd e) else match_ ignoreSearch c' query
  end.

(** [cache.put(request, response)] refuses, with a TypeError, a request that
    is not an http(s) GET, a response with status 206 and a response with
    [Vary: *]. *)
Definition put_accepts (request : Request) (response : Response) : bool :=
  String.eqb (method request) "GET"
  && (JsString.startsWith "http://" (url request)
      || JsString.startsWith "https://" (url request))
  && negb (status response =? 206)
  && negb (vary_star response).

(** The write itself: the entries that answer the request are replaced, the
    new entry goes last. *)
Definition put (c : Cache) (request : Request) (response : Response) : Cache :=
  List.filter (fun e => negb (matches false request e)) c ++ [(request, response)].

(** [cache.keys()] *)
Definition keys (c : Cache) : list Request := List.map fst c.

End CacheOps.

(** The cache storage of the origin: named caches in creation order. *)
Definition CacheStorage := list (string * Cache).

Module Storage.

Fixpoint lookup (name : string) (cs : CacheStorage) : option Cache :=
  match cs with
  | [] => None
  | (n, c) :: cs' => if String.eqb n name then Some c else lookup name cs'
  end.

Definition names (cs : CacheStorage) : list string := List.map fst cs.

(** [caches.open(name)] creates the cache when it does not exist. *)
Definition open (name : string) (cs : CacheStorage) : CacheStorage :=
  match lookup name cs with
  | Some _ => cs
  | None => cs ++ [(name, [])]
  end.

(** [caches.delete(name)] *)
Definition delete (name : string) (cs : CacheStorage) : CacheStorage :=
  List.filter (fun e => negb (String.eqb (fst e) name)) cs.

(** Replace the contents of the cache called [name]. *)
Fixpoint update (name : string) (f : Cache -> Cache) (cs : CacheStorage) : CacheStorage :=
  match cs with
  | [] => []
  | (n, c) :: cs' =>
      if String.eqb n name then (n, f c) :: cs' else (n, c) :: update name f cs'
  end.

(** [caches.match(request, {ignoreSearch})]: the first match over all the
    caches of the origin, in creation order. *)
Fixpoint match_ (ignoreSearch : bool) (cs : CacheStorage) (query : Request) : option Response :=
  match cs with
  | [] => None
  | (_, c) :: cs' =>
      match CacheOps.match_ ignoreSearch c query with
      | Some r => Some r
      | None => match_ ignoreSearch cs' query
      end
  end.

End Storage.

(** ** Values read back by [JSON.parse] *)

#[local] Set Warnings "-register-all".
Inductive JSON :=
| JNull
| JBool (b : bool)
| JNumber (n : Z)
| JString (s : string)
| JArray (items : list JSON)
| JObject (members : list (string * JSON)).

(** ** Host environment, state and observable calls *)

Inductive Error := TypeError | SyntaxError | ReferenceError.

Inductive Settled (A : Type) :=
| Fulfilled (a : A)
| Rejected (e : Error).
Arguments Fulfilled {A} a.
Arguments Rejected {A} e.

(** What the worker cannot decide for itself: the outcome of a network
    request ([None] when [fetch] rejects), the directory the worker script
    is served from, and [JSON.parse] ([None] when it throws a SyntaxError). *)
Record Env := mkEnv {
  network : Request -> option Response;
  worker_dir : string;
  JSON_parse : string -> option JSON
}.

(** [localStorage] is [None] in a scope that does not define that global,
    as a service worker scope does not: naming it there throws a
    ReferenceError. *)
Record World := mkWorld {
  caches : CacheStorage;
  localStorage : option (gmap string string)
}.

(** The reply of the control channel to GET_CACHE_INFO. *)
Record CacheInfo := mkCacheInfo {
  cacheSize : nat;
  cacheName : string;
  version : string
}.

Inductive Event :=
| Fetch (request : Request)
| CachesDelete (name : string)
| ClientsClaim
| SkipWaiting
| ConsoleError (e : Error)
| SetItem (key value : string)
| PostMessage (port : nat) (message : CacheInfo).

(** ** The promise monad *)

Definition Promise (A : Type) : Type :=
  Env -> World -> Settled A * World * list Event.

Module P.

Definition resolve {A} (a : A) : Promise A :=
  fun _ w => (Fulfilled a, w, []).

Definition reject {A} (e : Error) : Promise A :=
  fun _ w => (Rejected e, w, []).

(** [p.then(f)] *)
Definition then_ {A B} (p : Promise A) (f : A -> Promise B) : Promise B :=
  fun env w =>
    match p env w with
    | (Fulfilled a, w1, t1) =>
        let '(r, w2, t2) := f a env w1 in (r, w2, t1 ++ t2)
    | (Rejected e, w1, t1) => (Rejected e, w1, t1)
    end.

(** [p.catch(h)] *)
Definition catch {A} (p : Promise A) (h : Error -> Promise A) : Promise A :=
  fun env w =>
    match p env w with
    | (Fulfilled a, w1, t1) => (Fulfilled a, w1, t1)
    | (Rejected e, w1, t1) =>
        let '(r, w2, t2) := h e env w1 in (r, w2, t1 ++ t2)
    end.

(** A promise that is started and not returned to the caller. *)
Definition detach {A} (p : Promise A) : Promise unit :=
  fun env w => let '(_, w1, t1) := p env w in (Fulfilled tt, w1, t1).

(** [Promise.all(ps)]: every promise of the list has been started, in
    list order, so the effects of all of them take place; the result
    rejects as soon as one of them does. *)
Fixpoint all {A} (ps : list (Promise A)) : Promise (list A) :=
  match ps with
  | [] => resolve []
  | p :: ps' =>
      fun env w =>
        let '(r1, w1, t1) := p env w in
        let '(r2, w2, t2) := all ps' env w1 in
        (match r1, r2 with
         | Fulfilled a, Fulfilled rest => Fulfilled (a :: rest)
         | Rejected e, _ => Rejected e
         | Fulfilled _, Rejected e => Rejected e
         end, w2, t1 ++ t2)
  end.

Definition emit (e : Event) : Promise unit :=
  fun _ w => (Fulfilled tt, w, [e]).

Definition get_world : Promise World :=
  fun _ w => (Fulfilled w, w, []).

Definition get_env : Promise Env :=
  fun env w => (Fulfilled env, w, []).

Definition set_caches (cs : CacheStorage) : Promise unit :=
  fun _ w => (Fulfilled tt, {| caches := cs; localStorage := localStorage w |}, []).

Definition set_localStorage (ls : gmap string string) : Promise unit :=
  fun _ w => (Fulfilled tt, {| caches := caches w; localStorage := Some ls |}, []).

End P.

Declare Scope promise_scope.
Delimit Scope promise_scope with promise.
Notation "x <- p ;; k" := (P.then_ p (fun x => k))
  (at level 100, p at next level, right associativity) : promise_scope.
Notation "p ;;; k" := (P.then_ p (fun _ => k))
  (at level 100, right associativity) : promise_scope.
Local Open Scope promise_scope.

(** The outcome, final state and calls of a promise. *)
Definition outcome {A} (r : Settled A * World * list Event) : Settled A := r.1.1.
Definition world_of {A} (r : Settled A * World * list Event) : World := r.1.2.
Definition events {A} (r : Settled A * World * list Event) : list Event := r.2.

(** ** Host interfaces *)

Definition fetch (request : Request) : Promise Response :=
  P.emit (Fetch request) ;;;
  env <- P.get_env ;;
  match network env request with
  | Some response => P.resolve response
  | None => P.reject TypeError
  end.

(** [new Request(path)] for one of the worker's own relative paths. *)
Definition new_Request (env : Env) (path : string) : Request :=
  {| method := "GET"; url := Url.resolve (worker_dir env) path;
     headers := ∅; destination := "" |}.

(** [caches.open(name)]; the handle of a cache is its name. *)
Definition caches_open (name : string) : Promise string :=
  w <- P.get_world ;;
  P.set_caches (Storage.open name (caches w)) ;;;
  P.resolve name.

Definition caches_keys : Promise (list string) :=
  w <- P.get_world ;; P.resolve (Storage.names (caches w)).

Definition caches_delete (name : string) : Promise bool :=
  w <- P.get_world ;;
  P.emit (CachesDelete name) ;;;
  P.set_caches (Storage.delete name (caches w)) ;;;
  P.resolve (bool_decide (name ∈ Storage.names (caches w))).

Definition caches_match (request : Request) (ignoreSearch : bool) : Promise (option Response) :=
  w <- P.get_world ;; P.resolve (Storage.match_ ignoreSearch (caches w) request).

Definition caches_match_path (path : string) : Promise (option Response) :=
  env <- P.get_env ;; caches_match (new_Request env path) false.

Definition cache_put (cache : string) (request : Request) (response : Response) : Promise unit :=
  if CacheOps.put_accepts request response then
    w <- P.get_world ;;
    P.set_caches (Storage.update cache (fun c => CacheOps.put c request response) (caches w))
  else P.reject TypeError.

Definition cache_keys (cache : string) : Promise (list Request) :=
  w <- P.get_world ;;
  P.resolve (CacheOps.keys (default [] (Storage.lookup cache (caches w)))).

(** [cache.addAll(paths)]: every path is requested; unless every request
    yields an ok response, other than a 206 or a response with [Vary: *],
    nothing is stored and the promise rejects.  (The worker's own directory
    is an http(s) URL, so the requests themselves are accepted.) *)
Definition response_ok (r : Response) : bool :=
  (200 <=? status r) && (status r <=? 299) && negb (status r =? 206)
  && negb (CacheOps.vary_star r).

Fixpoint put_all (c : Cache) (entries : list (Request * Response)) : Cache :=
  match entries with
  | [] => c
  | (k, r) :: rest => put_all (CacheOps.put c k r) rest
  end.

Definition cache_addAll (cache : string) (paths : list string) : Promise unit :=
  env <- P.get_env ;;
  let requests := List.map (new_Request env) paths in
  responses <- P.catch
     (rs <- P.all (List.map fetch requests) ;; P.resolve (Some rs))
     (fun _ => P.resolve None) ;;
  match responses with
  | Some rs =>
      if forallb response_ok rs then
        w <- P.get_world ;;
        P.set_caches (Storage.update cache (fun c => put_all c (combine requests rs)) (caches w))
      else P.reject TypeError
  | None => P.reject TypeError
  end.

Definition skipWaiting : Promise unit := P.emit SkipWaiting.
Definition clients_claim : Promise unit := P.emit ClientsClaim.
Definition console_error (e : Error) : Promise unit := P.emit (ConsoleError e).

Definition localStorage_getItem (key : string) : Promise (option string) :=
  w <- P.get_world ;;
  match localStorage w with
  | Some items => P.resolve (items !! key)
  | None => P.reject ReferenceError
  end.

Definition localStorage_setItem (key value : string) : Promise unit :=
  w <- P.get_world ;;
  match localStorage w with
  | Some items =>
      P.emit (SetItem key value) ;;;
      P.set_localStorage (<[key := value]> items)
  | None => P.reject ReferenceError
  end.

(** ** The worker *)

Definition CACHE_NAME : string := "calculator-offline-v2".
Definition CACHE_VERSION : string := "2.0.0".
Definition OFFLINE_URL : string := "offline.html".

Definition CORE_ASSETS : list string :=
  [ "./"; "./index.html"; "./manifest.json"; "./icon.png";
    "./icon-192.png"; "./icon-512.png"; "./font-awesome.css" ].

(** *** Installation.  The promise handed to [event.waitUntil]. *)
Definition install : Promise unit :=
  P.catch
    (cache <- caches_open CACHE_NAME ;;
     cache_addAll cache CORE_ASSETS ;;;
     skipWaiting)
    (fun error => console_error error).

(** The host's reading of that promise: the installing worker becomes
    installed (waiting) when it fulfils and is discarded when it rejects. *)
Inductive WorkerState := Installing | Installed | Activating | Activated | Redundant.

Definition state_after_install (o : Settled unit) : WorkerState :=
  match o with
  | Fulfilled _ => Installed
  | Rejected _ => Redundant
  end.

(** *** Activation.  [delete_if_stale] is the callback mapped over the cache
    names ([None] for its [undefined]); [activate] is the promise handed to
    [event.waitUntil]. *)
Definition delete_if_stale (cacheName : string) : Promise (option bool) :=
  if negb (String.eqb cacheName CACHE_NAME)
  then deleted <- caches_delete cacheName ;; P.resolve (Some deleted)
  else P.resolve None.

Definition activate : Promise unit :=
  cacheNames <- caches_keys ;;
  P.all (List.map delete_if_stale cacheNames) ;;;
  clients_claim.

(** *** Cache first, then network.  A resolved [fetch] always carries a
    response, so the [!response] disjunct of the source's test is left out;
    [headers.get('accept')] is the lookup in the header map, and calling
    [includes] on its [null] throws. *)
Definition cacheFirstStrategy (request : Request) : Promise (option Response) :=
  cachedResponse <- caches_match request true ;;
  match cachedResponse with
  | Some cached => P.resolve (Some cached)
  | None =>
      P.catch
        (response <- fetch request ;;
         if negb (status response =? 200) || negb (String.eqb (type response) "basic")
         then P.resolve (Some response)
         else
           P.detach (cache <- caches_open CACHE_NAME ;;
                     P.detach (cache_put cache request response)) ;;;
           P.resolve (Some response))
        (fun error =>
           match headers request !! "accept" with
           | None => P.reject TypeError
           | Some accept =>
               if JsString.includes "text/html" accept then
                 offlineResponse <- caches_match_path OFFLINE_URL ;;
                 P.resolve
                   (Some (default (new_Response "You are offline. Calculator works offline!")
                                  offlineResponse))
               else if String.eqb (destination request) "image" then
                 caches_match_path "./icon.png"
               else
                 P.resolve
                   (Some (new_Response_init "Offline content not available" 408 "Offline"))
           end)
  end.

(** *** Network first, then cache *)
Definition networkThenCache (request : Request) : Promise (option Response) :=
  P.catch
    (response <- fetch request ;;
     P.detach (cache <- caches_open CACHE_NAME ;; cache_put cache request response) ;;;
     P.resolve (Some response))
    (fun _ => caches_match request false).

(** *** The fetch listener.  [None]: the listener returns without calling
    [event.respondWith], and the host performs the request itself. *)
Definition onFetch (request : Request) : option (Promise (option Response)) :=
  if negb (String.eqb (method request) "GET") then None
  else if JsString.startsWith "chrome-extension://" (url request) then None
  else if JsString.includes "/api/" (url request) then Some (networkThenCache request)
  else Some (cacheFirstStrategy request).

(** *** Background sync *)

(** [item || fallback] for a value read from [localStorage]. *)
Definition or_default (item : option string) (fallback : string) : string :=
  match item with
  | None => fallback
  | Some "" => fallback
  | Some s => s
  end.

Fixpoint property (name : string) (members : list (string * JSON)) : option JSON :=
  match members with
  | [] => None
  | (k, v) :: rest =>
      match property name rest with
      | Some v' => Some v'
      | None => if String.eqb k name then Some v else None
      end
  end.

(** [pending.length === 0]; reading a property of [null] throws. *)
Definition length_is_zero (pending : JSON) : Settled bool :=
  match pending with
  | JNull => Rejected TypeError
  | JArray items => Fulfilled (Nat.eqb (List.length items) 0)
  | JString s => Fulfilled (Nat.eqb (String.length s) 0)
  | JObject members =>
      Fulfilled match property "length" members with
                | Some (JNumber 0) => true
                | _ => false
                end
  | JBool _ | JNumber _ => Fulfilled false
  end.

Definition syncCalculations : Promise unit :=
  env <- P.get_env ;;
  item <- localStorage_getItem "pendingCalculations" ;;
  match JSON_parse env (or_default item "[]") with
  | None => P.reject SyntaxError
  | Some pending =>
      match length_is_zero pending with
      | Rejected e => P.reject e
      | Fulfilled true => P.resolve tt
      | Fulfilled false =>
          localStorage_setItem "pendingCalculations" "[]" ;;;
          P.resolve tt
      end
  end.

(** The sync listener.  [None]: [event.waitUntil] is not called. *)
Definition onSync (tag : string) : option (Promise unit) :=
  if String.eqb tag "sync-calculations" then Some syncCalculations else None.

(** *** Periodic cache refresh *)
Definition updateCache : Promise unit :=
  cache <- caches_open CACHE_NAME ;;
  cache_addAll cache CORE_ASSETS.

(** *** Messages from the page.  [data_type] is [event.data.type] when
    [event.data] is an object carrying one. *)
Record MessageEvent := mkMessageEvent {
  data_type : option string;
  ports : list nat
}.

Definition has_type (event : MessageEvent) (t : string) : bool :=
  match data_type event with
  | Some t' => String.eqb t' t
  | None => false
  end.

Definition onMessage (event : MessageEvent) : Promise unit :=
  (if has_type event "SKIP_WAITING" then P.detach skipWaiting else P.resolve tt) ;;;
  (if has_type event "GET_CACHE_INFO" then
     P.detach
       (cache <- caches_open CACHE_NAME ;;
        keys <- cache_keys cache ;;
        match ports event with
        | port :: _ =>
            P.emit (PostMessage port {| cacheSize := List.length keys;
                                        cacheName := CACHE_NAME;
                                        version := CACHE_VERSION |})
        | [] => P.reject TypeError
        end)
   else P.resolve tt).

(** *** Periodic sync.  The listener is registered only when the host has
    the capability; [None]: nothing is started. *)
Definition onPeriodicSync (supported : bool) (tag : string) : option (Promise unit) :=
  if supported then
    if String.eqb tag "update-cache" then Some updateCache else None
  else None.

(** *** Push notifications *)

(** JavaScript truthiness of a value read back by [JSON.parse]. *)
Definition truthy (v : JSON) : bool :=
  match v with
  | JNull => false
  | JBool b => b
  | JNumber n => negb (n =? 0)
  | JString s => negb (String.eqb s "")
  | JArray _ | JObject _ => true
  end.

(** [value.name] for one of the names [title], [body], [url]: a member of an
    object, [undefined] on any other value, a TypeError on [null]. *)
Definition member (name : string) (value : JSON) : Settled (option JSON) :=
  match value with
  | JNull => Rejected TypeError
  | JObject members => Fulfilled (property name members)
  | JBool _ | JNumber _ | JString _ | JArray _ => Fulfilled None
  end.

(** [value || fallback] *)
Definition or_else (value : option JSON) (fallback : JSON) : JSON :=
  match value with
  | Some v => if truthy v then v else fallback
  | None => fallback
  end.

Module Push.

Record Options := mkOptions {
  body : JSON;
  icon : string;
  badge : string;
  tag : string;
  data_url : JSON
}.

Record Notification := mkNotification {
  title : JSON;
  options : Options
}.

End Push.

(** The push listener: the arguments of its [showNotification] call, or the
    exception it throws.  [payload] is the text of [event.data], [None] when
    the push carries no data. *)
Definition onPush (payload : option string) (env : Env) : Settled Push.Notification :=
  match
    match payload with
    | None => Fulfilled (JObject [])
    | Some text =>
        match JSON_parse env text with
        | Some value => Fulfilled value
        | None => Rejected SyntaxError
        end
    end
  with
  | Rejected e => Rejected e
  | Fulfilled data =>
      match member "title" data, member "body" data, member "url" data with
      | Fulfilled t, Fulfilled b, Fulfilled u =>
          Fulfilled
            {| Push.title := or_else t (JString "Calculator Update");
               Push.options :=
                 {| Push.body := or_else b (JString "New features available!");
                    Push.icon := "./icon.png";
                    Push.badge := "./icon.png";
                    Push.tag := "calculator-update";
                    Push.data_url := or_else u (JString "./") |} |}
      | Rejected e, _, _ => Rejected e
      | _, Rejected e, _ => Rejected e
      | _, _, Rejected e => Rejected e
      end
  end.

(** *** Notification clicks *)

(** A window client: its URL and whether it has a [focus] method. *)
Record WindowClient := mkWindowClient {
  client_url : string;
  can_focus : bool
}.

Inductive ClientCall :=
| NotificationClose
| ClientFocus (client : WindowClient)
| OpenWindow (target : JSON).

(** [client.url === target] *)
Definition url_is (client : WindowClient) (target : JSON) : bool :=
  match target with
  | JString s => String.eqb (client_url client) s
  | _ => false
  end.

(** The loop over the window clients: the first client that is focused. *)
Fixpoint focus_existing (windowClients : list WindowClient) (target : JSON)
  : option WindowClient :=
  match windowClients with
  | [] => None
  | client :: rest =>
      if url_is client target && can_focus client then Some client
      else focus_existing rest target
  end.

(** The click listener: the calls it makes, in order.  [windowClients] is
    the answer of [clients.matchAll], [target] the URL kept in the
    notification, [openWindow] whether the host has [clients.openWindow]. *)
Definition onNotificationClick
    (windowClients : list WindowClient) (target : JSON) (openWindow : bool)
  : list ClientCall :=
  NotificationClose ::
  match focus_existing windowClients target with
  | Some client => [ClientFocus client]
  | None => if openWindow then [OpenWindow target] else []
  end.

(** ** Vocabulary of the statements *)

(** The cache of the current generation ([CACHE_NAME]); empty when it has
    not been created yet. *)
Definition current_store (w : World) : Cache :=
  default [] (Storage.lookup CACHE_NAME (caches w)).

(** The literal answers of the fallback ladder. *)
Definition offline_message : Response :=
  new_Response "You are offline. Calculator works offline!".

Definition offline_unavailable : Response :=
  new_Response_init "Offline content not available" 408 "Offline".

(** What [Promise.all] makes of the requests of [cache.addAll]. *)
Fixpoint fetched (env : Env) (requests : list Request) : Settled (list Response) :=
  match requests with
  | [] => Fulfilled []
  | q :: qs =>
      match network env q, fetched env qs with
      | Some r, Fulfilled rs => Fulfilled (r :: rs)
      | None, _ => Rejected TypeError
      | Some _, Rejected e => Rejected e
      end
  end.

(** A core asset fails when its request fails or is answered with a
    response that [cache.addAll] refuses. *)
Definition asset_fails (env : Env) (path : string) : bool :=
  match network env (new_Request env path) with
  | None => true
  | Some r => negb (response_ok r)
  end.

(** The names activation deletes, and the storage left by deleting them one
    after the other. *)
Definition stale (names : list string) : list string :=
  List.filter (fun n => negb (String.eqb n CACHE_NAME)) names.

Definition delete_all (names : list string) (cs : CacheStorage) : CacheStorage :=
  fold_left (fun cs n => Storage.delete n cs) names cs.

Definition is_current (e : string * Cache) : bool := String.eqb (fst e) CACHE_NAME.

(** The text [syncCalculations] parses: the stored queue, or the empty
    array when nothing (or the empty string) is stored. *)
Definition pending_text (w : World) : string :=
  or_default (match localStorage w with
              | Some items => items !! "pendingCalculations"
              | None => None
              end) "[]".

(** The requests [cache.addAll] makes for the core assets. *)
Definition core_requests (env : Env) : list Request :=
  List.map (new_Request env) CORE_ASSETS.

(** A storage that holds no cache but the current one, as activation leaves
    it. *)
Definition only_current (w : World) : Prop :=
  forall name, In name (Storage.names (caches w)) -> name = CACHE_NAME.

(** What a handler may do to the cache storage when it is not the
    activation: create the current cache, and nothing else to the set of
    caches or to the contents of the other caches. *)
Definition keeps_other_caches (w w' : World) : Prop :=
  (Storage.names (caches w') = Storage.names (caches w) \/
   (~ In CACHE_NAME (Storage.names (caches w)) /\
    Storage.names (caches w') = Storage.names (caches w) ++ [CACHE_NAME])) /\
  (forall name, name <> CACHE_NAME ->
     Storage.lookup name (caches w') = Storage.lookup name (caches w)).

(** ** Sample data *)

(** A host, some requests and cache contents. *)
Module Samples.

Definition get (u : string) (accept : option string) (dest : string) : Request :=
  {| method := "GET"; url := u;
     headers := match accept with
                | Some a => {[ "accept" := a ]}
                | None => ∅
                end;
     destination := dest |}.

Definition ok (b : string) : Response :=
  {| status := 200; statusText := "OK"; type := "basic"; vary := []; body := b |}.

Definition parse (s : string) : option JSON :=
  if String.eqb s "[]" then Some (JArray [])
  else if String.eqb s "[7]" then Some (JArray [JNumber 7])
  else None.

Definition dir : string := "https://calc.example/app/".

(** No network at all. *)
Definition offline : Env :=
  {| network := fun _ => None; worker_dir := dir; JSON_parse := parse |}.

(** Every request is answered with a same-origin 200 response. *)
Definition online : Env :=
  {| network := fun r => Some (ok (url r)); worker_dir := dir; JSON_parse := parse |}.

(** Everything is reachable except the application icon. *)
Definition icon_missing : Env :=
  {| network := fun r => if String.eqb (url r) (dir +:+ "icon.png") then None
                         else Some (ok (url r));
     worker_dir := dir; JSON_parse := parse |}.

(** A same-origin 200 response with [Vary: *], and a host that answers
    every request with it. *)
Definition varies_on_all : Response :=
  {| status := 200; statusText := "OK"; type := "basic"; vary := ["*"]; body := "v" |}.

Definition varying : Env :=
  {| network := fun _ => Some varies_on_all; worker_dir := dir; JSON_parse := parse |}.

Definition page : Request := get (dir +:+ "index.html") (Some "text/html") "document".
Definition page_query : Request := get (dir +:+ "index.html?source=pwa") (Some "text/html") "document".
Definition picture : Request := get (dir +:+ "photo.png") (Some "image/*") "image".
Definition picture_no_accept : Request := get (dir +:+ "photo.png") None "image".
Definition api_call : Request := get (dir +:+ "api/rates?base=usd") (Some "*/*") "".
Definition extension : Request := get "chrome-extension://abcdef/inject.js" (Some "*/*") "script".
Definition post : Request :=
  {| method := "POST"; url := dir +:+ "index.html"; headers := ∅; destination := "" |}.

Definition fresh : World := {| caches := []; localStorage := None |}.

(** The current generation, holding the start page and the icon. *)
Definition installed : World :=
  {| caches := [ (CACHE_NAME, [ (get (dir +:+ "index.html") None "", ok "page v2");
                                (get (dir +:+ "icon.png") None "", ok "icon") ]) ];
     localStorage := None |}.

(** The same, with a cache created earlier (the previous generation's)
    still in the storage. *)
Definition two_generations : World :=
  {| caches := [ ("calculator-offline-v1",
                   [ (get (dir +:+ "index.html") None "", ok "page v1") ]);
                 (CACHE_NAME,
                   [ (get (dir +:+ "index.html") None "", ok "page v2");
                     (get (dir +:+ "icon.png") None "", ok "icon") ]) ];
     localStorage := None |}.

(** One cached API answer, stored under its full URL. *)
Definition api_cached : World :=
  {| caches := [ (CACHE_NAME, [ (get (dir +:+ "api/rates?base=eur") None "", ok "eur") ]) ];
     localStorage := None |}.

Definition queue (s : string) : World :=
  {| caches := []; localStorage := Some {[ "pendingCalculations" := s ]} |}.

End Samples.

(** * Properties *)

(** Unfolding of the promise combinators and host interfaces. *)
Ltac run_promise :=
  cbv beta delta
    [P.then_ P.catch P.detach P.resolve P.reject P.emit P.get_world P.get_env
     P.set_caches P.set_localStorage fetch caches_open caches_keys caches_delete
     caches_match caches_match_path cache_put cache_keys skipWaiting clients_claim
     console_error localStorage_getItem localStorage_setItem
     outcome world_of events];
  cbn [fst snd app caches localStorage].

(** ** String tests *)

Section StringFacts.

Import JsString.

Lemma startsWith_HasPrefix p s : startsWith p s = true <-> HasPrefix p s.
Proof.
  revert s; induction p as [|a p IH]; intros s; simpl.
  - split; [intros _; exists s; reflexivity | reflexivity].
  - destruct s as [|b s].
    + split; [discriminate | intros [r Hr]; discriminate].
    + rewrite andb_true_iff, Ascii.eqb_eq, IH. split.
      * intros [-> [r ->]]. exists r; reflexivity.
      * intros [r Hr]. simpl in Hr. injection Hr as -> ->.
        split; [reflexivity | exists r; reflexivity].
Qed.

Lemma includes_unfold p s :
  includes p s =
  startsWith p s || match s with EmptyString => false | String _ s' => includes p s' end.
Proof. destruct s; reflexivity. Qed.

Lemma includes_Contains p s : includes p s = true <-> Contains p s.
Proof.
  split.
  - induction s as [|c s IH]; simpl; rewrite orb_true_iff.
    + intros [H|H]; [|discriminate].
      apply startsWith_HasPrefix in H as [r ->]. exists "", r; reflexivity.
    + intros [H|H].
      * apply startsWith_HasPrefix in H as [r Hr]. exists "", r; exact Hr.
      * destruct (IH H) as (a & b & ->). exists (String c a), b; reflexivity.
  - intros (a & b & ->). induction a as [|c a IH].
    + assert (H : startsWith p ("" +:+ p +:+ b) = true)
        by (apply startsWith_HasPrefix; exists b; reflexivity).
      rewrite includes_unfold, H. reflexivity.
    + change (String c a +:+ p +:+ b) with (String c (a +:+ p +:+ b)).
      rewrite includes_unfold, IH. apply orb_true_r.
Qed.

Lemma startsWith_false p s : startsWith p s = false <-> ~ HasPrefix p s.
Proof. rewrite <- startsWith_HasPrefix. destruct (startsWith p s); intuition congruence. Qed.

Lemma includes_false p s : includes p s = false <-> ~ Contains p s.
Proof. rewrite <- includes_Contains. destruct (includes p s); intuition congruence. Qed.

End StringFacts.

(** ** Cache and cache-storage lookups *)

Section CacheFacts.

Lemma matches_key ig q e :
  CacheOps.matches ig q e = true ->
  Url.key ig (url q) = Url.key ig (url (fst e)).
Proof. unfold CacheOps.matches. intros H%andb_true_iff. apply String.eqb_eq, H. Qed.

Lemma matches_other_key ig q e :
  Url.key ig (url q) <> Url.key ig (url (fst e)) -> CacheOps.matches ig q e = false.
Proof.
  intros H. unfold CacheOps.matches. apply String.eqb_neq in H. rewrite H. reflexivity.
Qed.

Lemma same_header_refl name q : CacheOps.same_header name q q = true.
Proof.
  unfold CacheOps.same_header. destruct (headers q !! name); [apply String.eqb_refl | reflexivity].
Qed.

(** An entry answers its own request unless its response has [Vary: *]. *)
Lemma matches_own ig q r :
  CacheOps.vary_star r = false -> CacheOps.matches ig q (q, r) = true.
Proof.
  intros H. unfold CacheOps.matches, CacheOps.vary_ok. cbn [fst snd].
  rewrite String.eqb_refl, H. cbn [negb andb].
  apply forallb_forall. intros name _. apply same_header_refl.
Qed.

Lemma cache_match_app ig c1 c2 q :
  CacheOps.match_ ig (c1 ++ c2) q =
  match CacheOps.match_ ig c1 q with
  | Some r => Some r
  | None => CacheOps.match_ ig c2 q
  end.
Proof.
  induction c1 as [|e c1 IH]; simpl; [reflexivity|].
  destruct (CacheOps.matches ig q e); [reflexivity | exact IH].
Qed.

Lemma cache_match_None ig c q :
  CacheOps.match_ ig c q = None <->
  forall e, In e c -> CacheOps.matches ig q e = false.
Proof.
  induction c as [|e0 c IH]; simpl.
  - split; [intros _ e [] | reflexivity].
  - destruct (CacheOps.matches ig q e0) eqn:E; split.
    + discriminate.
    + intros H. specialize (H e0 (or_introl eq_refl)). congruence.
    + intros H e [<-|Hin]; [exact E|]. eapply IH; eassumption.
    + intros H. apply IH. intros e Hin. apply H. right; exact Hin.
Qed.

Lemma cache_match_Some ig c q r :
  CacheOps.match_ ig c q = Some r ->
  exists k, In (k, r) c /\ CacheOps.matches ig q (k, r) = true.
Proof.
  induction c as [|[k r'] c IH]; simpl; [discriminate|].
  destruct (CacheOps.matches ig q (k, r')) eqn:E.
  - intros [= ->]. exists k. split; [left; reflexivity | exact E].
  - intros H. destruct (IH H) as (k' & Hin & Hm). exists k'. split; [right|]; assumption.
Qed.

Lemma cache_match_put c q r :
  CacheOps.vary_star r = false ->
  CacheOps.match_ false (CacheOps.put c q r) q = Some r.
Proof.
  intros Hstar. unfold CacheOps.put. rewrite cache_match_app.
  assert (H : CacheOps.match_ false
                (List.filter (fun e => negb (CacheOps.matches false q e)) c) q = None).
  { apply cache_match_None. intros e Hin.
    apply filter_In in Hin as [_ Hn].
    destruct (CacheOps.matches false q e); [discriminate | reflexivity]. }
  rewrite H. simpl. rewrite (matches_own false q r Hstar). reflexivity.
Qed.

Lemma In_cache_put c q r : In (q, r) (CacheOps.put c q r).
Proof. unfold CacheOps.put. apply in_app_iff. right. left. reflexivity. Qed.

Lemma put_accepts_no_star q r :
  CacheOps.put_accepts q r = true -> CacheOps.vary_star r = false.
Proof.
  unfold CacheOps.put_accepts. intros H%andb_true_iff. destruct H as [_ H].
  apply negb_true_iff. exact H.
Qed.

Lemma storage_match_None ig cs q :
  Storage.match_ ig cs q = None <->
  forall n c, In (n, c) cs -> CacheOps.match_ ig c q = None.
Proof.
  induction cs as [|[n c] cs IH]; simpl.
  - split; [intros _ n c [] | reflexivity].
  - destruct (CacheOps.match_ ig c q) eqn:E; split.
    + discriminate.
    + intros H. specialize (H n c (or_introl eq_refl)). congruence.
    + intros H n' c' [[= <- <-]|Hin]; [exact E|]. eapply IH; eassumption.
    + intros H. apply IH. intros n' c' Hin. apply (H n' c'). right; exact Hin.
Qed.

Lemma storage_match_Some ig cs q r :
  Storage.match_ ig cs q = Some r ->
  exists n c k, In (n, c) cs /\ In (k, r) c /\ CacheOps.matches ig q (k, r) = true.
Proof.
  induction cs as [|[n c] cs IH]; simpl; [discriminate|].
  destruct (CacheOps.match_ ig c q) eqn:E.
  - intros [= ->]. apply cache_match_Some in E as (k & Hin & Hm).
    exists n, c, k. split; [left; reflexivity | split; assumption].
  - intros H. destruct (IH H) as (n' & c' & k & Hin & Hk & Hm).
    exists n', c', k. split; [right; assumption | split; assumption].
Qed.

(** A hit in any one cache is a hit of the storage-wide lookup. *)
Lemma storage_match_hit ig cs name c q r :
  Storage.lookup name cs = Some c ->
  CacheOps.match_ ig c q = Some r ->
  exists r', Storage.match_ ig cs q = Some r'.
Proof.
  induction cs as [|[n c'] cs IH]; simpl; [discriminate|].
  destruct (CacheOps.match_ ig c' q) eqn:E; [intros _ _; eauto|].
  destruct (String.eqb n name).
  - intros [= ->] H. congruence.
  - exact IH.
Qed.

(** With a single cache in the storage the two lookups coincide. *)
Lemma storage_match_single ig cs name q :
  Storage.names cs = [name] ->
  Storage.match_ ig cs q = CacheOps.match_ ig (default [] (Storage.lookup name cs)) q.
Proof.
  destruct cs as [|[n c] [|? ?]]; try discriminate.
  intros [= ->]. simpl. rewrite String.eqb_refl. simpl.
  destruct (CacheOps.match_ ig c q); reflexivity.
Qed.

Lemma lookup_app name cs1 cs2 :
  Storage.lookup name (cs1 ++ cs2) =
  match Storage.lookup name cs1 with
  | Some c => Some c
  | None => Storage.lookup name cs2
  end.
Proof.
  induction cs1 as [|[n c] cs1 IH]; simpl; [reflexivity|].
  destruct (String.eqb n name); [reflexivity | exact IH].
Qed.

Lemma lookup_open name cs :
  Storage.lookup name (Storage.open name cs) = Some (default [] (Storage.lookup name cs)).
Proof.
  unfold Storage.open. destruct (Storage.lookup name cs) eqn:E; simpl; [exact E|].
  rewrite lookup_app, E. simpl. rewrite String.eqb_refl. reflexivity.
Qed.

Lemma lookup_update name f cs c :
  Storage.lookup name cs = Some c ->
  Storage.lookup name (Storage.update name f cs) = Some (f c).
Proof.
  induction cs as [|[n c'] cs IH]; simpl; [discriminate|].
  destruct (String.eqb n name) eqn:E; simpl; rewrite E.
  - intros [= ->]. reflexivity.
  - exact IH.
Qed.

End CacheFacts.

(** ** The request router *)

(** C6. The fetch listener is a function of the request, with no state, and
    classifies it by its method and URL alone, by four rules applied in
    order: a request that is not a GET is left to
    the host; so is a GET whose URL starts with the browser-extension
    scheme; any other GET whose URL contains the API path segment is
    answered by the network-first strategy; every remaining GET is answered
    by the cache-first strategy. *)
Theorem onFetch_routing (request : Request) :
  (method request <> "GET" -> onFetch request = None) /\
  (method request = "GET" ->
   JsString.HasPrefix "chrome-extension://" (url request) ->
   onFetch request = None) /\
  (method request = "GET" ->
   ~ JsString.HasPrefix "chrome-extension://" (url request) ->
   JsString.Contains "/api/" (url request) ->
   onFetch request = Some (networkThenCache request)) /\
  (method request = "GET" ->
   ~ JsString.HasPrefix "chrome-extension://" (url request) ->
   ~ JsString.Contains "/api/" (url request) ->
   onFetch request = Some (cacheFirstStrategy request)).
Proof.
  unfold onFetch. repeat split.
  - intros H. apply String.eqb_neq in H. rewrite H. reflexivity.
  - intros -> H%startsWith_HasPrefix. rewrite H. reflexivity.
  - intros -> H1%startsWith_false H2%includes_Contains. rewrite H1, H2. reflexivity.
  - intros -> H1%startsWith_false H2%includes_false. rewrite H1, H2. reflexivity.
Qed.

Lemma onFetch_routing_witness :
  onFetch Samples.post = None /\
  onFetch Samples.extension = None /\
  onFetch Samples.api_call = Some (networkThenCache Samples.api_call) /\
  onFetch Samples.page = Some (cacheFirstStrategy Samples.page).
Proof.
  split; [|split; [|split]].
  - apply (proj1 (onFetch_routing Samples.post)). discriminate.
  - apply (proj1 (proj2 (onFetch_routing Samples.extension))).
    + reflexivity.
    + exists "abcdef/inject.js". reflexivity.
  - apply (proj1 (proj2 (proj2 (onFetch_routing Samples.api_call)))).
    + reflexivity.
    + apply startsWith_false. reflexivity.
    + exists "https://calc.example/app", "rates?base=usd". reflexivity.
  - apply (proj2 (proj2 (proj2 (onFetch_routing Samples.page)))).
    + reflexivity.
    + apply startsWith_false. reflexivity.
    + apply includes_false. reflexivity.
Defined.

(** ** Network first *)

(** C7. When the network request of the network-first strategy fails, the
    caller gets the result of a cache lookup under the request's full URL,
    query string included: an entry is returned only if it is stored under
    exactly that URL, and when there is none the strategy fulfils with no
    response at all ([undefined]) and synthesizes nothing.  The cache
    storage is left as it was. *)
Theorem networkThenCache_offline (env : Env) (w : World) (request : Request) :
  network env request = None ->
  let run := networkThenCache request env w in
  outcome run = Fulfilled (Storage.match_ false (caches w) request) /\
  world_of run = w /\
  events run = [Fetch request] /\
  (forall r, outcome run = Fulfilled (Some r) ->
     exists name c k, In (name, c) (caches w) /\ In (k, r) c /\
       Url.key false (url k) = Url.key false (url request)) /\
  ((forall name c k r, In (name, c) (caches w) -> In (k, r) c ->
      Url.key false (url k) <> Url.key false (url request)) ->
   outcome run = Fulfilled None).
Proof.
  intros Hnet run. subst run. unfold networkThenCache. run_promise.
  rewrite Hnet. cbn. destruct w as [cs ls]; cbn.
  repeat split.
  - intros r [= H]. apply storage_match_Some in H as (n & c & k & Hn & Hk & Hm).
    exists n, c, k. repeat split; try assumption.
    apply matches_key in Hm. symmetry. exact Hm.
  - intros H. f_equal. apply storage_match_None. intros n c Hn.
    apply cache_match_None. intros [k r] Hk. apply matches_other_key.
    intros E. apply (H n c k r Hn Hk). symmetry. exact E.
Qed.

Lemma networkThenCache_offline_witness :
  network Samples.offline Samples.api_call = None /\
  outcome (networkThenCache Samples.api_call Samples.offline Samples.api_cached)
  = Fulfilled None.
Proof.
  split; [reflexivity|].
  pose proof (networkThenCache_offline Samples.offline Samples.api_cached
                Samples.api_call eq_refl) as H.
  cbv zeta in H. destruct H as (H & _). rewrite H. reflexivity.
Defined.

(** ** Cache first *)

(** The ladder itself, for a request that carries an accept header: a hit
    was missed, the network failed, and the answer is chosen by the accept
    header first, by the destination second. *)
Lemma cacheFirst_fallback_ladder (env : Env) (w : World) (request : Request) (accept : string) :
  Storage.match_ true (caches w) request = None ->
  network env request = None ->
  headers request !! "accept" = Some accept ->
  cacheFirstStrategy request env w =
  (Fulfilled
     (if JsString.includes "text/html" accept then
        Some (default offline_message
                (Storage.match_ false (caches w) (new_Request env OFFLINE_URL)))
      else if String.eqb (destination request) "image" then
        Storage.match_ false (caches w) (new_Request env "./icon.png")
      else Some offline_unavailable),
   w, [Fetch request]).
Proof.
  intros Hmiss Hnet Hacc. unfold cacheFirstStrategy. run_promise.
  rewrite Hmiss, Hnet. cbn. rewrite Hacc.
  destruct w as [cs ls]; cbn.
  destruct (JsString.includes "text/html" accept); [reflexivity|].
  destruct (String.eqb (destination request) "image"); reflexivity.
Qed.

(** C10. The network-failure path of the cache-first strategy reads the
    accept header without checking that there is one.  For a request
    without an accept header that misses the cache and fails on the network
    the strategy therefore rejects with a TypeError, whatever the request's
    destination, and yields none of the ladder's answers; with an accept
    header present the same path always fulfils. *)
Theorem cacheFirst_fallback_needs_accept (env : Env) (w : World) (request : Request) :
  Storage.match_ true (caches w) request = None ->
  network env request = None ->
  (headers request !! "accept" = None ->
   cacheFirstStrategy request env w = (Rejected TypeError, w, [Fetch request])) /\
  (forall accept, headers request !! "accept" = Some accept ->
   exists answer, outcome (cacheFirstStrategy request env w) = Fulfilled answer).
Proof.
  intros Hmiss Hnet. split.
  - intros Hacc. unfold cacheFirstStrategy. run_promise.
    rewrite Hmiss, Hnet. cbn. rewrite Hacc. destruct w; reflexivity.
  - intros accept Hacc.
    rewrite (cacheFirst_fallback_ladder env w request accept Hmiss Hnet Hacc).
    eexists. reflexivity.
Qed.

Lemma cacheFirst_fallback_needs_accept_witness :
  Storage.match_ true (caches Samples.fresh) Samples.picture_no_accept = None /\
  network Samples.offline Samples.picture_no_accept = None /\
  headers Samples.picture_no_accept !! "accept" = None /\
  cacheFirstStrategy Samples.picture_no_accept Samples.offline Samples.fresh
  = (Rejected TypeError, Samples.fresh, [Fetch Samples.picture_no_accept]).
Proof.
  split; [reflexivity|]. split; [reflexivity|]. split; [reflexivity|].
  apply (proj1 (cacheFirst_fallback_needs_accept Samples.offline Samples.fresh
                  Samples.picture_no_accept eq_refl eq_refl)).
  reflexivity.
Defined.

(** C1, at a request the ladder does not cover.  An image request without
    an accept header, missing the cache while the network is down and the
    placeholder icon is cached: the ladder of C1 selects the cached icon,
    the strategy rejects with a TypeError instead. *)
Theorem cacheFirst_image_without_accept_rejects :
  let request := Samples.picture_no_accept in
  let w := Samples.installed in
  let env := Samples.offline in
  method request = "GET" /\
  onFetch request = Some (cacheFirstStrategy request) /\
  Storage.match_ true (caches w) request = None /\
  network env request = None /\
  destination request = "image" /\
  Storage.match_ false (caches w) (new_Request env "./icon.png") = Some (Samples.ok "icon") /\
  outcome (cacheFirstStrategy request env w) = Rejected TypeError.
Proof. cbv zeta. repeat split; vm_compute; reflexivity. Qed.

(** C2, as the code has it.  When the current store holds an entry for the
    request (query string ignored), the cache-first strategy answers from
    the cache storage without touching the network or the storage: it
    returns the first matching entry of the storage, searched cache by cache
    in creation order.  That is the current store's own entry whenever the
    current store is the only cache of the storage. *)
Theorem cacheFirst_hit (env : Env) (w : World) (request : Request) (stored : Response) :
  CacheOps.match_ true (current_store w) request = Some stored ->
  exists served,
    Storage.match_ true (caches w) request = Some served /\
    cacheFirstStrategy request env w = (Fulfilled (Some served), w, []) /\
    (Storage.names (caches w) = [CACHE_NAME] -> served = stored).
Proof.
  intros Hhit. unfold current_store in Hhit.
  destruct (Storage.lookup CACHE_NAME (caches w)) as [c|] eqn:Hc; [|discriminate].
  simpl in Hhit.
  destruct (storage_match_hit true (caches w) CACHE_NAME c request stored Hc Hhit)
    as [served Hserved].
  exists served. split; [exact Hserved|]. split.
  - unfold cacheFirstStrategy. run_promise. rewrite Hserved. destruct w; reflexivity.
  - intros Hone. rewrite (storage_match_single true _ CACHE_NAME request Hone) in Hserved.
    rewrite Hc in Hserved. simpl in Hserved. congruence.
Qed.

Lemma cacheFirst_hit_witness :
  CacheOps.match_ true (current_store Samples.installed) Samples.page_query
  = Some (Samples.ok "page v2") /\
  cacheFirstStrategy Samples.page_query Samples.online Samples.installed
  = (Fulfilled (Some (Samples.ok "page v2")), Samples.installed, []).
Proof.
  split; [reflexivity|].
  destruct (cacheFirst_hit Samples.online Samples.installed Samples.page_query
              (Samples.ok "page v2") eq_refl) as (served & _ & Hrun & Hsame).
  rewrite Hrun, (Hsame eq_refl). reflexivity.
Defined.

(** C2 as stated fails when an older cache of the storage also holds the
    key: the current store holds "page v2" for the request, and the strategy
    serves "page v1" from the cache of the previous generation. *)
Lemma cacheFirst_hit_older_cache_wins :
  CacheOps.match_ true (current_store Samples.two_generations) Samples.page
  = Some (Samples.ok "page v2") /\
  outcome (cacheFirstStrategy Samples.page Samples.online Samples.two_generations)
  = Fulfilled (Some (Samples.ok "page v1")) /\
  outcome (cacheFirstStrategy Samples.page Samples.online Samples.two_generations)
  <> Fulfilled (Some (Samples.ok "page v2")).
Proof. repeat split; try (vm_compute; reflexivity). vm_compute. discriminate. Qed.

(** C3, as the code has it.  A request for which the cache storage holds no
    entry (query string ignored) is fetched, exactly once, and the caller
    receives the network response as it is.  For a response with status 200
    and type basic a write into the current cache is started and not
    waited for: when the cache accepts it (an http(s) GET request, a
    response without [Vary: *]) the current cache afterwards holds the
    response under the request; when the cache refuses it the rejection is
    dropped and nothing is stored.  A response with another status or type
    is not stored: the state is left as it was. *)
Theorem cacheFirst_miss_network_success
    (env : Env) (w : World) (request : Request) (response : Response) :
  Storage.match_ true (caches w) request = None ->
  network env request = Some response ->
  let run := cacheFirstStrategy request env w in
  outcome run = Fulfilled (Some response) /\
  events run = [Fetch request] /\
  localStorage (world_of run) = localStorage w /\
  (status response = 200 /\ type response = "basic" /\
   CacheOps.put_accepts request response = true ->
   caches (world_of run) =
     Storage.update CACHE_NAME (fun c => CacheOps.put c request response)
       (Storage.open CACHE_NAME (caches w)) /\
   In (request, response) (current_store (world_of run)) /\
   CacheOps.match_ false (current_store (world_of run)) request = Some response) /\
  (status response = 200 /\ type response = "basic" /\
   CacheOps.put_accepts request response = false ->
   caches (world_of run) = Storage.open CACHE_NAME (caches w) /\
   current_store (world_of run) = current_store w) /\
  (status response <> 200 \/ type response <> "basic" -> world_of run = w).
Proof.
  intros Hmiss Hnet run. subst run. unfold cacheFirstStrategy. run_promise.
  rewrite Hmiss, Hnet. cbn.
  destruct (status response =? 200) eqn:Hst;
    destruct (String.eqb (type response) "basic") eqn:Hty; cbn.
  - destruct (CacheOps.put_accepts request response) eqn:Hput; cbn;
      (split; [reflexivity|]); (split; [reflexivity|]); (split; [reflexivity|]);
      (split; [|split]).
    + intros _. split; [reflexivity|].
      unfold current_store. cbn.
      rewrite (lookup_update CACHE_NAME _ _ _ (lookup_open CACHE_NAME (caches w))).
      cbn. split; [apply In_cache_put|].
      apply cache_match_put. eapply put_accepts_no_star. exact Hput.
    + intros (_ & _ & H). discriminate H.
    + intros [H|H]; [apply Z.eqb_eq in Hst | apply String.eqb_eq in Hty]; contradiction.
    + intros (_ & _ & H). discriminate H.
    + intros _. split; [reflexivity|].
      unfold current_store. cbn. rewrite lookup_open. reflexivity.
    + intros [H|H]; [apply Z.eqb_eq in Hst | apply String.eqb_eq in Hty]; contradiction.
  - apply String.eqb_neq in Hty.
    split; [reflexivity|]. split; [reflexivity|]. split; [reflexivity|].
    split; [intros (_ & H & _); contradiction|].
    split; [intros (_ & H & _); contradiction|]. intros _. destruct w; reflexivity.
  - apply Z.eqb_neq in Hst.
    split; [reflexivity|]. split; [reflexivity|]. split; [reflexivity|].
    split; [intros (H & _); contradiction|].
    split; [intros (H & _); contradiction|]. intros _. destruct w; reflexivity.
  - apply Z.eqb_neq in Hst.
    split; [reflexivity|]. split; [reflexivity|]. split; [reflexivity|].
    split; [intros (H & _); contradiction|].
    split; [intros (H & _); contradiction|]. intros _. destruct w; reflexivity.
Qed.

Lemma cacheFirst_miss_network_success_witness :
  Storage.match_ true (caches Samples.fresh) Samples.picture = None /\
  network Samples.online Samples.picture = Some (Samples.ok (url Samples.picture)) /\
  CacheOps.put_accepts Samples.picture (Samples.ok (url Samples.picture)) = true /\
  outcome (cacheFirstStrategy Samples.picture Samples.online Samples.fresh)
  = Fulfilled (Some (Samples.ok (url Samples.picture))) /\
  CacheOps.match_ false
    (current_store (world_of (cacheFirstStrategy Samples.picture Samples.online Samples.fresh)))
    Samples.picture
  = Some (Samples.ok (url Samples.picture)).
Proof.
  split; [reflexivity|]. split; [reflexivity|]. split; [reflexivity|].
  pose proof (cacheFirst_miss_network_success Samples.online Samples.fresh Samples.picture
                (Samples.ok (url Samples.picture)) eq_refl eq_refl) as H.
  cbv zeta in H. destruct H as (Hout & _ & _ & Hstored & _).
  split; [exact Hout|].
  destruct (Hstored (conj eq_refl (conj eq_refl eq_refl))) as (_ & _ & Hm). exact Hm.
Defined.

(** C3 as stated fails for a response the cache refuses: a same-origin 200
    response with [Vary: *] is returned to the caller, and the current
    cache holds nothing for the request afterwards. *)
Lemma cacheFirst_vary_star_not_stored :
  Storage.match_ true (caches Samples.fresh) Samples.picture = None /\
  network Samples.varying Samples.picture = Some Samples.varies_on_all /\
  status Samples.varies_on_all = 200 /\ type Samples.varies_on_all = "basic" /\
  outcome (cacheFirstStrategy Samples.picture Samples.varying Samples.fresh)
  = Fulfilled (Some Samples.varies_on_all) /\
  current_store (world_of (cacheFirstStrategy Samples.picture Samples.varying Samples.fresh))
  = [] /\
  CacheOps.match_ false
    (current_store (world_of (cacheFirstStrategy Samples.picture Samples.varying Samples.fresh)))
    Samples.picture
  = None.
Proof. repeat split; vm_compute; reflexivity. Qed.

(** ** Installation *)

Section InstallFacts.

Variable env : Env.

Lemma all_fetch requests w :
  P.all (List.map fetch requests) env w = (fetched env requests, w, List.map Fetch requests).
Proof.
  induction requests as [|q qs IH]; [reflexivity|].
  cbn [List.map P.all fetched].
  assert (Hq : fetch q env w =
               (match network env q with
                | Some r => Fulfilled r
                | None => Rejected TypeError
                end, w, [Fetch q])).
  { unfold fetch. run_promise. destruct (network env q); reflexivity. }
  rewrite Hq, IH.
  destruct (network env q); cbn; [destruct (fetched env qs)|]; reflexivity.
Qed.

Lemma fetched_rejects requests e :
  fetched env requests = Rejected e -> e = TypeError.
Proof.
  induction requests as [|q qs IH]; cbn [fetched]; [discriminate|].
  destruct (network env q); [|congruence].
  destruct (fetched env qs); [discriminate|].
  intros [= <-]. apply IH. reflexivity.
Qed.

Lemma fetched_failure paths :
  existsb (asset_fails env) paths = true ->
  match fetched env (List.map (new_Request env) paths) with
  | Fulfilled rs => forallb response_ok rs = false
  | Rejected e => e = TypeError
  end.
Proof.
  intros H.
  destruct (fetched env (List.map (new_Request env) paths)) as [rs|e] eqn:E;
    [|eapply fetched_rejects; exact E].
  revert rs E H.
  induction paths as [|p ps IH]; cbn [existsb List.map fetched]; [discriminate|].
  intros rs. unfold asset_fails at 1.
  destruct (network env (new_Request env p)) as [r|]; [|discriminate].
  destruct (fetched env (List.map (new_Request env) ps)) as [rs'|]; [|discriminate].
  intros [= <-]. cbn [forallb].
  destruct (response_ok r); cbn [negb orb andb]; [|reflexivity].
  apply IH. reflexivity.
Qed.

Lemma cache_addAll_rejects cache paths w :
  existsb (asset_fails env) paths = true ->
  cache_addAll cache paths env w =
  (Rejected TypeError, w, List.map Fetch (List.map (new_Request env) paths)).
Proof.
  intros H. apply fetched_failure in H.
  unfold cache_addAll. run_promise. rewrite all_fetch.
  destruct (fetched env (List.map (new_Request env) paths)) as [rs|e]; cbn.
  - rewrite H. cbn. rewrite !app_nil_r. reflexivity.
  - rewrite !app_nil_r. reflexivity.
Qed.

End InstallFacts.

(** C4, as the code has it.  When a core asset fails during install, the
    rejection of [cache.addAll] is caught by the handler and only logged:
    the promise handed to the host fulfils, so the host records a successful
    install and the worker becomes installed.  The failed population stores
    nothing (the cache of the current generation is merely created), and
    promotion past the waiting state is not requested. *)
Theorem install_failure_is_swallowed (env : Env) (w : World) :
  (exists path, In path CORE_ASSETS /\ asset_fails env path = true) ->
  let run := install env w in
  outcome run = Fulfilled tt /\
  state_after_install (outcome run) = Installed /\
  events run =
    List.map Fetch (List.map (new_Request env) CORE_ASSETS) ++ [ConsoleError TypeError] /\
  ~ In SkipWaiting (events run) /\
  world_of run =
    {| caches := Storage.open CACHE_NAME (caches w); localStorage := localStorage w |}.
Proof.
  intros (path & Hin & Hfail) run.
  assert (Hex : existsb (asset_fails env) CORE_ASSETS = true)
    by (apply existsb_exists; exists path; split; assumption).
  assert (Hrun : run =
    (Fulfilled tt,
     {| caches := Storage.open CACHE_NAME (caches w); localStorage := localStorage w |},
     List.map Fetch (List.map (new_Request env) CORE_ASSETS) ++ [ConsoleError TypeError])).
  { subst run. unfold install. run_promise.
    rewrite (cache_addAll_rejects env CACHE_NAME CORE_ASSETS _ Hex). reflexivity. }
  rewrite Hrun. unfold outcome, world_of, events. cbn [fst snd state_after_install].
  repeat split.
  intros H. apply in_app_iff in H as [H|[H|[]]]; [|discriminate].
  apply in_map_iff in H as (q & Hq & _). discriminate.
Qed.

Lemma install_failure_is_swallowed_witness :
  (exists path, In path CORE_ASSETS /\ asset_fails Samples.icon_missing path = true) /\
  outcome (install Samples.icon_missing Samples.fresh) = Fulfilled tt /\
  ~ In SkipWaiting (events (install Samples.icon_missing Samples.fresh)).
Proof.
  assert (H : exists path, In path CORE_ASSETS /\ asset_fails Samples.icon_missing path = true).
  { exists "./icon.png". split; [|reflexivity]. cbn. tauto. }
  split; [exact H|].
  pose proof (install_failure_is_swallowed Samples.icon_missing Samples.fresh H) as R.
  cbv zeta in R. destruct R as (Hout & _ & _ & Hskip & _).
  split; assumption.
Defined.

(** C4 as stated fails: with the icon unreachable, the install promise does
    not reject, and the host moves the worker to the installed state. *)
Lemma install_failure_not_surfaced :
  In "./icon.png" CORE_ASSETS /\
  network Samples.icon_missing (new_Request Samples.icon_missing "./icon.png") = None /\
  outcome (install Samples.icon_missing Samples.fresh) = Fulfilled tt /\
  (forall e, outcome (install Samples.icon_missing Samples.fresh) <> Rejected e) /\
  state_after_install (outcome (install Samples.icon_missing Samples.fresh)) = Installed.
Proof.
  split; [cbn; tauto|]. split; [reflexivity|].
  assert (H : outcome (install Samples.icon_missing Samples.fresh) = Fulfilled tt)
    by (vm_compute; reflexivity).
  rewrite H. repeat split. intros e. discriminate.
Qed.

(** For comparison, an install whose assets are all served does request
    promotion. *)
Example install_online_skips_waiting :
  outcome (install Samples.online Samples.fresh) = Fulfilled tt /\
  In SkipWaiting (events (install Samples.online Samples.fresh)) /\
  List.length (current_store (world_of (install Samples.online Samples.fresh))) = 7%nat.
Proof. repeat split; vm_compute; tauto. Qed.

(** ** Activation *)

Section ActivateFacts.

Lemma delete_all_filter names cs :
  delete_all names cs =
  List.filter (fun e => negb (existsb (String.eqb (fst e)) names)) cs.
Proof.
  revert cs. induction names as [|n names IH]; intros cs; cbn [delete_all fold_left existsb].
  - cbn. symmetry. apply filter_true.
  - fold (delete_all names (Storage.delete n cs)). rewrite IH.
    unfold Storage.delete. induction cs as [|e cs IHcs]; [reflexivity|].
    cbn [List.filter]. destruct (String.eqb (fst e) n) eqn:E; cbn [negb orb].
    + exact IHcs.
    + cbn [List.filter].
      destruct (negb (existsb (String.eqb (fst e)) names)); [f_equal|]; exact IHcs.
Qed.

Lemma delete_stale_keeps_current cs :
  delete_all (stale (Storage.names cs)) cs = List.filter is_current cs.
Proof.
  rewrite delete_all_filter. apply filter_ext_in. intros [n c] Hin.
  unfold is_current. cbn [fst].
  destruct (String.eqb n CACHE_NAME) eqn:E.
  - apply negb_true_iff. apply not_true_iff_false. intros H.
    apply existsb_exists in H as (m & Hm & Heq).
    apply String.eqb_eq in Heq as <-.
    apply filter_In in Hm as [_ Hm]. rewrite E in Hm. discriminate.
  - apply negb_false_iff. apply existsb_exists. exists n.
    split; [|apply String.eqb_refl].
    apply filter_In. split; [|rewrite E; reflexivity].
    apply in_map_iff. exists (n, c). split; [reflexivity | exact Hin].
Qed.

Lemma filter_current_absent cs :
  ~ In CACHE_NAME (Storage.names cs) -> List.filter is_current cs = [].
Proof.
  induction cs as [|[n c] cs IH]; [reflexivity|].
  cbn. unfold is_current at 1. cbn [fst].
  destruct (String.eqb n CACHE_NAME) eqn:E.
  - apply String.eqb_eq in E. intros H. exfalso. apply H. left. exact E.
  - intros H. apply IH. intros Hin. apply H. right. exact Hin.
Qed.


Lemma lookup_filter_current cs :
  Storage.lookup CACHE_NAME (List.filter is_current cs) = Storage.lookup CACHE_NAME cs.
Proof.
  induction cs as [|[n c] cs IH]; [reflexivity|].
  cbn [List.filter Storage.lookup]. unfold is_current at 1. cbn [fst].
  destruct (String.eqb n CACHE_NAME) eqn:E; [|exact IH].
  cbn [Storage.lookup]. rewrite E. reflexivity.
Qed.

Lemma all_delete_if_stale env names w :
  exists results,
    P.all (List.map delete_if_stale names) env w =
    (Fulfilled results,
     {| caches := delete_all (stale names) (caches w); localStorage := localStorage w |},
     List.map CachesDelete (stale names)).
Proof.
  revert w. induction names as [|n names IH]; intros w.
  - exists []. destruct w; reflexivity.
  - cbn [List.map P.all]. unfold delete_if_stale at 1, stale.
    cbn [List.filter]. fold (stale names).
    destruct (negb (String.eqb n CACHE_NAME)).
    + run_promise.
      destruct (IH {| caches := Storage.delete n (caches w);
                      localStorage := localStorage w |}) as [results ->].
      eexists. reflexivity.
    + run_promise. destruct (IH w) as [results ->]. eexists. reflexivity.
Qed.

End ActivateFacts.



(** ** Background sync *)

(** C8, in the scope the worker runs in.  A service worker scope defines
    no [localStorage]: with the recognized tag the flush is started, and
    the first thing it does, naming [localStorage], throws.  The promise
    handed to [event.waitUntil] rejects with a ReferenceError, whatever the
    queue would have been; nothing is read and nothing is written. *)
Theorem sync_rejects_in_worker_scope (env : Env) (cs : CacheStorage) :
  onSync "sync-calculations" = Some syncCalculations /\
  syncCalculations env {| caches := cs; localStorage := None |} =
  (Rejected ReferenceError, {| caches := cs; localStorage := None |}, []).
Proof. split; reflexivity. Qed.

(** What the flush does in a scope that does define [localStorage], which is
    what the code was written for: an empty queue succeeds without a write,
    a queue of one or more calculations succeeds after the single write of
    the empty array; any other tag starts nothing. *)
Lemma sync_flushes_queue_with_storage
    (env : Env) (w : World) (items : gmap string string) (tag : string) (queue : list JSON) :
  localStorage w = Some items ->
  JSON_parse env (pending_text w) = Some (JArray queue) ->
  (tag <> "sync-calculations" -> onSync tag = None) /\
  (queue = [] -> syncCalculations env w = (Fulfilled tt, w, [])) /\
  ((1 <= List.length queue)%nat ->
   syncCalculations env w =
   (Fulfilled tt,
    {| caches := caches w;
       localStorage := Some (<["pendingCalculations" := "[]"]> items) |},
    [SetItem "pendingCalculations" "[]"])).
Proof.
  intros Hls Hparse. unfold pending_text in Hparse. rewrite Hls in Hparse.
  split; [|split].
  - intros H. unfold onSync. apply String.eqb_neq in H. rewrite H. reflexivity.
  - intros ->. unfold syncCalculations. run_promise. rewrite Hls. cbn.
    rewrite Hparse. destruct w; cbn in *; subst; reflexivity.
  - intros Hlen. unfold syncCalculations. run_promise. rewrite Hls. cbn.
    rewrite Hparse. destruct queue as [|item queue]; [cbn in Hlen; lia|].
    cbn. rewrite Hls. reflexivity.
Qed.

(** ** Messages *)

(** C9. A GET_CACHE_INFO message that comes with a reply port gets exactly
    one reply, on that port: the number of keys the current store holds when
    the message is handled, the name of the current store and the version
    string.  Nothing is stored; the current store is created, empty, when it
    did not exist. *)
Theorem cache_info_reply (env : Env) (w : World) (port : nat) (others : list nat) :
  let run := onMessage {| data_type := Some "GET_CACHE_INFO"; ports := port :: others |} env w in
  outcome run = Fulfilled tt /\
  events run =
    [PostMessage port {| cacheSize := List.length (CacheOps.keys (current_store w));
                         cacheName := CACHE_NAME;
                         version := CACHE_VERSION |}] /\
  current_store (world_of run) = current_store w /\
  localStorage (world_of run) = localStorage w.
Proof.
  intros run. subst run. unfold onMessage, has_type. cbn [data_type ports].
  change (String.eqb "GET_CACHE_INFO" "SKIP_WAITING") with false.
  change (String.eqb "GET_CACHE_INFO" "GET_CACHE_INFO") with true.
  run_promise. unfold current_store. cbn [caches].
  rewrite !lookup_open. repeat split.
Qed.

(** Stores of size 0, 1 and many. *)
Example cache_info_sizes :
  events (onMessage {| data_type := Some "GET_CACHE_INFO"; ports := [4%nat] |}
            Samples.offline Samples.fresh)
  = [PostMessage 4 {| cacheSize := 0; cacheName := CACHE_NAME; version := CACHE_VERSION |}] /\
  events (onMessage {| data_type := Some "GET_CACHE_INFO"; ports := [4%nat] |}
            Samples.offline Samples.api_cached)
  = [PostMessage 4 {| cacheSize := 1; cacheName := CACHE_NAME; version := CACHE_VERSION |}] /\
  events (onMessage {| data_type := Some "GET_CACHE_INFO"; ports := [4%nat] |}
            Samples.offline
            (world_of (install Samples.online Samples.fresh)))
  = [PostMessage 4 {| cacheSize := 7; cacheName := CACHE_NAME; version := CACHE_VERSION |}].
Proof. repeat split; vm_compute; reflexivity. Qed.

(** * Further properties of the worker *)

(** ** More on cache lookups and writes *)

Section PutFacts.

(** The key that ignores the query string is a function of the exact key. *)
Lemma key_exact_any ig u v : Url.key false u = Url.key false v -> Url.key ig u = Url.key ig v.
Proof. destruct ig; unfold Url.key; [intros ->|]; trivial. Qed.

(** Two queries with the same URL key and the same headers are answered by
    the same entries. *)
Lemma matches_same_query ig q q' e :
  Url.key ig (url q) = Url.key ig (url q') -> headers q = headers q' ->
  CacheOps.matches ig q e = CacheOps.matches ig q' e.
Proof.
  intros Hk Hh. unfold CacheOps.matches, CacheOps.vary_ok, CacheOps.same_header.
  rewrite Hk, Hh. reflexivity.
Qed.

Lemma cache_match_same_query ig c q q' :
  Url.key ig (url q) = Url.key ig (url q') -> headers q = headers q' ->
  CacheOps.match_ ig c q = CacheOps.match_ ig c q'.
Proof.
  intros Hk Hh. induction c as [|e c IH]; [reflexivity|].
  cbn [CacheOps.match_]. rewrite (matches_same_query ig q q' e Hk Hh), IH. reflexivity.
Qed.


(** An entry whose response has no Vary header answers every query for its
    URL. *)
Lemma matches_no_vary ig q k r :
  vary r = [] -> Url.key ig (url q) = Url.key ig (url k) ->
  CacheOps.matches ig q (k, r) = true.
Proof.
  intros Hv Hk. unfold CacheOps.matches, CacheOps.vary_ok, CacheOps.vary_star.
  cbn [fst snd]. rewrite Hk, String.eqb_refl, Hv. reflexivity.
Qed.

(** A write under a key the cache did not answer for. *)
Lemma cache_match_put_miss ig c k r q :
  CacheOps.match_ ig c q = None ->
  CacheOps.match_ ig (CacheOps.put c k r) q =
  if CacheOps.matches ig q (k, r) then Some r else None.
Proof.
  intros Hmiss. unfold CacheOps.put. rewrite cache_match_app.
  assert (H : CacheOps.match_ ig
                (List.filter (fun e => negb (CacheOps.matches false k e)) c) q = None).
  { apply cache_match_None. intros e Hin. apply filter_In in Hin as [Hin _].
    eapply cache_match_None; eassumption. }
  rewrite H. reflexivity.
Qed.

(** A write under another URL does not change the answer for [q]. *)
Lemma cache_match_put_other c k r q :
  Url.key false (url q) <> Url.key false (url k) ->
  CacheOps.match_ false (CacheOps.put c k r) q = CacheOps.match_ false c q.
Proof.
  intros Hne. unfold CacheOps.put. rewrite cache_match_app.
  cbn [CacheOps.match_].
  rewrite (matches_other_key false q (k, r)) by exact Hne.
  assert (H : CacheOps.match_ false
                (List.filter (fun e => negb (CacheOps.matches false k e)) c) q
              = CacheOps.match_ false c q).
  { induction c as [|e c IH]; [reflexivity|].
    cbn [List.filter CacheOps.match_].
    destruct (CacheOps.matches false k e) eqn:Ek; cbn [negb].
    - destruct (CacheOps.matches false q e) eqn:Eq; [|exact IH].
      apply matches_key in Ek, Eq. congruence.
    - cbn [CacheOps.match_]. rewrite IH. reflexivity. }
  rewrite H. destruct (CacheOps.match_ false c q); reflexivity.
Qed.

(** A cache that answers for [q] still does after the write of a response
    without a Vary header. *)
Lemma cache_match_put_Some ig c k r q :
  vary r = [] ->
  is_Some (CacheOps.match_ ig c q) -> is_Some (CacheOps.match_ ig (CacheOps.put c k r) q).
Proof.
  intros Hv [r0 H0]. apply cache_match_Some in H0 as (k0 & Hin & Hm).
  destruct (CacheOps.match_ ig (CacheOps.put c k r) q) eqn:E; [eauto|].
  exfalso. pose proof (proj1 (cache_match_None ig _ q) E) as Hall.
  destruct (CacheOps.matches false k (k0, r0)) eqn:Ek.
  - specialize (Hall (k, r) (In_cache_put c k r)).
    apply matches_key in Ek, Hm. cbn [fst] in Ek, Hm.
    rewrite (matches_no_vary ig q k r Hv) in Hall; [discriminate|].
    rewrite Hm. symmetry. apply key_exact_any. exact Ek.
  - assert (Hin' : In (k0, r0) (CacheOps.put c k r)).
    { unfold CacheOps.put. apply in_app_iff. left. apply filter_In.
      split; [exact Hin|]. rewrite Ek. reflexivity. }
    specialize (Hall (k0, r0) Hin'). congruence.
Qed.

Lemma put_all_app c es1 es2 : put_all c (es1 ++ es2) = put_all (put_all c es1) es2.
Proof.
  revert c. induction es1 as [|[k r] es1 IH]; intros c; [reflexivity|].
  cbn. apply IH.
Qed.

Lemma put_all_match_Some ig c es q :
  (forall k r, In (k, r) es -> vary r = []) ->
  is_Some (CacheOps.match_ ig c q) -> is_Some (CacheOps.match_ ig (put_all c es) q).
Proof.
  revert c. induction es as [|[k r] es IH]; intros c Hv H; [exact H|].
  cbn. apply IH.
  - intros k' r' Hin. apply (Hv k' r'). right. exact Hin.
  - apply cache_match_put_Some; [apply (Hv k r); left; reflexivity | exact H].
Qed.

(** After [put_all] of responses without Vary headers, every URL that was
    written is answered for. *)
Lemma put_all_match_written ig c es k r q :
  (forall k r, In (k, r) es -> vary r = []) ->
  In (k, r) es -> Url.key ig (url q) = Url.key ig (url k) ->
  is_Some (CacheOps.match_ ig (put_all c es) q).
Proof.
  revert c. induction es as [|[k' r'] es IH]; intros c Hv; [intros []|].
  assert (Hv' : forall k r, In (k, r) es -> vary r = [])
    by (intros k0 r0 Hin; apply (Hv k0 r0); right; exact Hin).
  intros [[= -> ->]|Hin] Hm; cbn.
  - apply put_all_match_Some; [exact Hv'|].
    assert (Hr : vary r = []) by (apply (Hv k r); left; reflexivity).
    destruct (CacheOps.match_ ig c q) eqn:E.
    + apply cache_match_put_Some; [exact Hr | rewrite E; eauto].
    + rewrite (cache_match_put_miss ig c k r q E), (matches_no_vary ig q k r Hr Hm). eauto.
  - apply IH; assumption.
Qed.

(** Writes under other URLs leave the answer for [q] as it was. *)
Lemma put_all_match_other c es q :
  (forall k r, In (k, r) es -> Url.key false (url q) <> Url.key false (url k)) ->
  CacheOps.match_ false (put_all c es) q = CacheOps.match_ false c q.
Proof.
  revert c. induction es as [|[k r] es IH]; intros c H; [reflexivity|].
  cbn. rewrite IH.
  - apply cache_match_put_other. apply (H k r). left; reflexivity.
  - intros k' r' Hin. apply (H k' r'). right; exact Hin.
Qed.

End PutFacts.

Section StorageFacts.

Lemma names_update name f cs : Storage.names (Storage.update name f cs) = Storage.names cs.
Proof.
  unfold Storage.names. induction cs as [|[n c] cs IH]; [reflexivity|].
  cbn [Storage.update]. destruct (String.eqb n name); cbn [List.map fst];
    [|rewrite IH]; reflexivity.
Qed.

Lemma lookup_None_names name cs :
  Storage.lookup name cs = None <-> ~ In name (Storage.names cs).
Proof.
  induction cs as [|[n c] cs IH]; cbn; [tauto|].
  destruct (String.eqb n name) eqn:E.
  - apply String.eqb_eq in E. split; [discriminate | intros H; exfalso; apply H; left; exact E].
  - apply String.eqb_neq in E. rewrite IH. tauto.
Qed.

Lemma names_open name cs :
  Storage.names (Storage.open name cs) = Storage.names cs \/
  (~ In name (Storage.names cs) /\
   Storage.names (Storage.open name cs) = Storage.names cs ++ [name]).
Proof.
  unfold Storage.open. destruct (Storage.lookup name cs) eqn:E; [left; reflexivity|].
  right. split; [apply lookup_None_names; exact E|].
  unfold Storage.names. rewrite map_app. reflexivity.
Qed.

Lemma lookup_update_other name name' f cs :
  name' <> name ->
  Storage.lookup name' (Storage.update name f cs) = Storage.lookup name' cs.
Proof.
  intros Hne. induction cs as [|[n c] cs IH]; [reflexivity|].
  cbn [Storage.update]. destruct (String.eqb n name) eqn:E; cbn [Storage.lookup].
  - apply String.eqb_eq in E. subst n.
    destruct (String.eqb name name') eqn:E'; [|reflexivity].
    apply String.eqb_eq in E'. congruence.
  - rewrite IH. reflexivity.
Qed.

Lemma lookup_open_other name name' cs :
  name' <> name ->
  Storage.lookup name' (Storage.open name cs) = Storage.lookup name' cs.
Proof.
  intros Hne. unfold Storage.open. destruct (Storage.lookup name cs); [reflexivity|].
  rewrite lookup_app. destruct (Storage.lookup name' cs); [reflexivity|].
  cbn. destruct (String.eqb name name') eqn:E; [|reflexivity].
  apply String.eqb_eq in E. congruence.
Qed.

Lemma storage_match_app ig cs1 cs2 q :
  Storage.match_ ig (cs1 ++ cs2) q =
  match Storage.match_ ig cs1 q with
  | Some r => Some r
  | None => Storage.match_ ig cs2 q
  end.
Proof.
  induction cs1 as [|[n c] cs1 IH]; [reflexivity|].
  cbn. destruct (CacheOps.match_ ig c q); [reflexivity | exact IH].
Qed.

(** Creating the cache does not change what the storage answers. *)
Lemma storage_match_open ig name cs q :
  Storage.match_ ig (Storage.open name cs) q = Storage.match_ ig cs q.
Proof.
  unfold Storage.open. destruct (Storage.lookup name cs); [reflexivity|].
  rewrite storage_match_app. destruct (Storage.match_ ig cs q); reflexivity.
Qed.

Lemma storage_match_update_keep ig name f cs q :
  (forall c, CacheOps.match_ ig (f c) q = CacheOps.match_ ig c q) ->
  Storage.match_ ig (Storage.update name f cs) q = Storage.match_ ig cs q.
Proof.
  intros Hf. induction cs as [|[n c] cs IH]; [reflexivity|].
  cbn [Storage.update]. destruct (String.eqb n name); cbn [Storage.match_].
  - rewrite Hf. reflexivity.
  - rewrite IH. reflexivity.
Qed.



Lemma keeps_other_caches_same w w' :
  caches w' = caches w -> keeps_other_caches w w'.
Proof. intros E. unfold keeps_other_caches. rewrite E. split; [left|]; reflexivity. Qed.

Lemma keeps_other_caches_open w w' :
  caches w' = Storage.open CACHE_NAME (caches w) -> keeps_other_caches w w'.
Proof.
  intros E. unfold keeps_other_caches. rewrite E. split.
  - apply names_open.
  - intros name Hne. apply lookup_open_other. exact Hne.
Qed.

Lemma keeps_other_caches_update w w' f :
  caches w' = Storage.update CACHE_NAME f (Storage.open CACHE_NAME (caches w)) ->
  keeps_other_caches w w'.
Proof.
  intros E. unfold keeps_other_caches. rewrite E, names_update. split.
  - apply names_open.
  - intros name Hne. rewrite lookup_update_other by exact Hne.
    apply lookup_open_other. exact Hne.
Qed.

End StorageFacts.

Section AddAllFacts.

Variable env : Env.

Lemma fetched_all_ok paths :
  existsb (asset_fails env) paths = false ->
  exists rs,
    fetched env (List.map (new_Request env) paths) = Fulfilled rs /\
    forallb response_ok rs = true /\
    Forall2 (fun path r => network env (new_Request env path) = Some r) paths rs.
Proof.
  induction paths as [|p ps IH]; cbn [existsb List.map fetched].
  - intros _. exists []. repeat split. constructor.
  - unfold asset_fails at 1.
    destruct (network env (new_Request env p)) as [r|] eqn:Hp; [|discriminate].
    destruct (response_ok r) eqn:Hok; [|discriminate]. cbn [negb orb].
    intros H. destruct (IH H) as (rs & -> & Hall & Hrel).
    exists (r :: rs). split; [reflexivity|]. split.
    + cbn. rewrite Hok. exact Hall.
    + constructor; assumption.
Qed.

Lemma cache_addAll_succeeds cache paths w :
  existsb (asset_fails env) paths = false ->
  exists rs,
    forallb response_ok rs = true /\
    Forall2 (fun path r => network env (new_Request env path) = Some r) paths rs /\
    cache_addAll cache paths env w =
    (Fulfilled tt,
     {| caches := Storage.update cache
                    (fun c => put_all c (combine (List.map (new_Request env) paths) rs))
                    (caches w);
        localStorage := localStorage w |},
     List.map Fetch (List.map (new_Request env) paths)).
Proof.
  intros H. destruct (fetched_all_ok paths H) as (rs & Hf & Hok & Hrel).
  exists rs. split; [exact Hok|]. split; [exact Hrel|].
  unfold cache_addAll. run_promise. rewrite all_fetch, Hf. cbn.
  rewrite Hok. cbn. rewrite !app_nil_r. reflexivity.
Qed.

(** The entries [cache.addAll] writes: one per path, each the answer of the
    network to the request for that path. *)
Lemma written_entry paths rs path :
  Forall2 (fun path r => network env (new_Request env path) = Some r) paths rs ->
  In path paths ->
  exists r, In (new_Request env path, r) (combine (List.map (new_Request env) paths) rs).
Proof.
  induction 1 as [|p r ps rs' Hp Hrel IH]; [intros []|].
  intros [->|Hin]; cbn.
  - exists r. left. reflexivity.
  - destruct (IH Hin) as [r' Hr']. exists r'. right. exact Hr'.
Qed.

Lemma written_entry_inv paths rs k r :
  Forall2 (fun path r => network env (new_Request env path) = Some r) paths rs ->
  In (k, r) (combine (List.map (new_Request env) paths) rs) ->
  exists path, In path paths /\ k = new_Request env path /\ network env k = Some r.
Proof.
  induction 1 as [|p r0 ps rs' Hp Hrel IH]; [intros []|].
  cbn. intros [[= <- <-]|Hin].
  - exists p. split; [left; reflexivity|]. split; [reflexivity | exact Hp].
  - destruct (IH Hin) as (path & Hpath & Hk & Hnet).
    exists path. split; [right; exact Hpath|]. split; assumption.
Qed.

End AddAllFacts.

(** The cache-first strategy on a hit of the storage-wide lookup. *)
Lemma cacheFirst_served (env : Env) (w : World) (request : Request) (r : Response) :
  Storage.match_ true (caches w) request = Some r ->
  cacheFirstStrategy request env w = (Fulfilled (Some r), w, []).
Proof.
  intros H. unfold cacheFirstStrategy. run_promise. rewrite H. destruct w; reflexivity.
Qed.

(** The run of a successful install. *)
Lemma install_success_run (env : Env) (w : World) :
  existsb (asset_fails env) CORE_ASSETS = false ->
  exists rs,
    forallb response_ok rs = true /\
    Forall2 (fun path r => network env (new_Request env path) = Some r) CORE_ASSETS rs /\
    install env w =
    (Fulfilled tt,
     {| caches := Storage.update CACHE_NAME
                    (fun c => put_all c (combine (core_requests env) rs))
                    (Storage.open CACHE_NAME (caches w));
        localStorage := localStorage w |},
     List.map Fetch (core_requests env) ++ [SkipWaiting]).
Proof.
  intros H.
  destruct (cache_addAll_succeeds env CACHE_NAME CORE_ASSETS
              {| caches := Storage.open CACHE_NAME (caches w);
                 localStorage := localStorage w |} H) as (rs & Hok & Hrel & Hrun).
  exists rs. split; [exact Hok|]. split; [exact Hrel|].
  unfold install. run_promise. rewrite Hrun. reflexivity.
Qed.

(** After [put_all], a URL that was written is answered with a response that
    was written under that URL, for a query that carries the headers of the
    written requests. *)
Lemma put_all_match_exact c es k r q :
  (forall k r, In (k, r) es -> headers k = headers q /\ CacheOps.vary_star r = false) ->
  In (k, r) es -> Url.key false (url q) = Url.key false (url k) ->
  exists k' r', In (k', r') es /\ Url.key false (url q) = Url.key false (url k') /\
                CacheOps.match_ false (put_all c es) q = Some r'.
Proof.
  revert k r. induction es as [|[k1 r1] es IH] using rev_ind; [intros k r _ []|].
  intros k r Hes Hin Hm. rewrite put_all_app. cbn [put_all].
  destruct (Hes k1 r1) as [Hh1 Hs1]; [apply in_app_iff; right; left; reflexivity|].
  destruct (String.eqb (Url.key false (url q)) (Url.key false (url k1))) eqn:E1.
  - apply String.eqb_eq in E1.
    exists k1, r1. split; [apply in_app_iff; right; left; reflexivity|].
    split; [exact E1|].
    rewrite (cache_match_same_query false _ q k1 E1 (eq_sym Hh1)).
    apply cache_match_put. exact Hs1.
  - apply String.eqb_neq in E1.
    apply in_app_iff in Hin as [Hin|[[= -> ->]|[]]]; [|congruence].
    destruct (IH k r) as (k' & r' & Hin' & Hm' & Hr'); [|exact Hin|exact Hm|].
    { intros k0 r0 H0. apply Hes. apply in_app_iff. left. exact H0. }
    exists k', r'. split; [apply in_app_iff; left; exact Hin'|]. split; [exact Hm'|].
    rewrite cache_match_put_other by exact E1. exact Hr'.
Qed.

(** The entries [cache.addAll] writes carry no request headers, and their
    responses no [Vary: *]. *)
Lemma written_entry_shape (env : Env) paths rs k r :
  forallb response_ok rs = true ->
  In (k, r) (combine (List.map (new_Request env) paths) rs) ->
  headers k = ∅ /\ CacheOps.vary_star r = false.
Proof.
  intros Hok Hin. split.
  - apply in_combine_l in Hin. apply in_map_iff in Hin as (path & <- & _). reflexivity.
  - apply in_combine_r in Hin.
    pose proof (proj1 (forallb_forall response_ok rs) Hok r Hin) as H.
    unfold response_ok in H. apply andb_true_iff in H as [_ H].
    apply negb_true_iff. exact H.
Qed.

(** The current cache after the core assets were written into it. *)
Lemma populated_cache (env : Env) (rs : list Response) (c : Cache) (path : string) :
  forallb response_ok rs = true ->
  Forall2 (fun path r => network env (new_Request env path) = Some r) CORE_ASSETS rs ->
  In path CORE_ASSETS ->
  exists path' r,
    In path' CORE_ASSETS /\
    Url.key false (url (new_Request env path)) = Url.key false (url (new_Request env path')) /\
    network env (new_Request env path') = Some r /\
    CacheOps.match_ false (put_all c (combine (core_requests env) rs)) (new_Request env path)
    = Some r.
Proof.
  intros Hok Hrel Hpath.
  destruct (written_entry env CORE_ASSETS rs path Hrel Hpath) as [r0 Hin0].
  destruct (put_all_match_exact c _ _ r0 (new_Request env path)
              (fun k r Hin => written_entry_shape env CORE_ASSETS rs k r Hok Hin)
              Hin0 eq_refl)
    as (k' & r' & Hin' & Hm' & Hr').
  destruct (written_entry_inv env CORE_ASSETS rs k' r' Hrel Hin') as (path' & Hp' & -> & Hnet).
  exists path', r'. split; [exact Hp'|]. split; [exact Hm'|].
  split; [exact Hnet | exact Hr'].
Qed.

(** ** Installation, when every core asset is served *)



(** X2. After an install whose assets were all served, with responses that
    carry no Vary header, a request for the URL of a core asset, with any
    query string and any headers, is answered by the cache-first strategy
    from the cache, without a network request and whatever the state of the
    network then is. *)
Theorem core_assets_served_from_cache
    (env env' : Env) (w : World) (path : string) (request : Request) :
  existsb (asset_fails env) CORE_ASSETS = false ->
  (forall p r, In p CORE_ASSETS -> network env (new_Request env p) = Some r -> vary r = []) ->
  In path CORE_ASSETS ->
  Url.key true (url request) = Url.key true (url (new_Request env path)) ->
  let installed := world_of (install env w) in
  exists r, cacheFirstStrategy request env' installed = (Fulfilled (Some r), installed, []).
Proof.
  intros Hok Hvary Hpath Hkey installed.
  destruct (install_success_run env w Hok) as (rs & _ & Hrel & Hrun).
  destruct (written_entry env CORE_ASSETS rs path Hrel Hpath) as [r0 Hin0].
  assert (Hcur : Storage.lookup CACHE_NAME (caches installed) =
                 Some (put_all (default [] (Storage.lookup CACHE_NAME (caches w)))
                               (combine (core_requests env) rs))).
  { subst installed. rewrite Hrun. unfold world_of. cbn [fst snd caches].
    rewrite (lookup_update CACHE_NAME _ _ _ (lookup_open CACHE_NAME (caches w))).
    reflexivity. }
  assert (Hv : forall k r, In (k, r) (combine (core_requests env) rs) -> vary r = []).
  { intros k r Hin.
    destruct (written_entry_inv env CORE_ASSETS rs k r Hrel Hin) as (p0 & Hp0 & -> & Hnet).
    exact (Hvary p0 r Hp0 Hnet). }
  destruct (put_all_match_written true
              (default [] (Storage.lookup CACHE_NAME (caches w)))
              (combine (core_requests env) rs) _ r0 request Hv Hin0 Hkey) as [r1 Hr1].
  destruct (storage_match_hit true _ CACHE_NAME _ request r1 Hcur Hr1) as [r Hr].
  exists r. apply cacheFirst_served. exact Hr.
Qed.

Lemma core_assets_served_from_cache_witness :
  existsb (asset_fails Samples.online) CORE_ASSETS = false /\
  (forall p r, In p CORE_ASSETS ->
     network Samples.online (new_Request Samples.online p) = Some r -> vary r = []) /\
  In "./index.html" CORE_ASSETS /\
  Url.key true (url Samples.page_query)
  = Url.key true (url (new_Request Samples.online "./index.html")) /\
  exists r,
    cacheFirstStrategy Samples.page_query Samples.offline
      (world_of (install Samples.online Samples.fresh))
    = (Fulfilled (Some r), world_of (install Samples.online Samples.fresh), []).
Proof.
  assert (H1 : existsb (asset_fails Samples.online) CORE_ASSETS = false)
    by (vm_compute; reflexivity).
  assert (Hv : forall p r, In p CORE_ASSETS ->
            network Samples.online (new_Request Samples.online p) = Some r -> vary r = []).
  { intros p r _ [= <-]. reflexivity. }
  assert (H2 : In "./index.html" CORE_ASSETS) by (cbn; tauto).
  assert (H3 : Url.key true (url Samples.page_query)
               = Url.key true (url (new_Request Samples.online "./index.html")))
    by (vm_compute; reflexivity).
  split; [exact H1|]. split; [exact Hv|]. split; [exact H2|]. split; [exact H3|].
  exact (core_assets_served_from_cache Samples.online Samples.offline Samples.fresh
           "./index.html" Samples.page_query H1 Hv H2 H3).
Defined.

(** ** The offline page *)

Section UrlFacts.

Lemma before_append c s t :
  JsString.includes (String c "") s = false ->
  JsString.before c (s +:+ t) = s +:+ JsString.before c t.
Proof.
  induction s as [|a s IH]; [reflexivity|].
  rewrite includes_unfold. cbn [JsString.startsWith].
  change (String a s +:+ t) with (String a (s +:+ t)).
  change (String a s +:+ JsString.before c t) with (String a (s +:+ JsString.before c t)).
  cbn [JsString.before].
  rewrite orb_false_iff, andb_true_r. intros [Ha Hs].
  rewrite Ascii.eqb_sym, Ha, (IH Hs). reflexivity.
Qed.

Lemma append_inj_l s a b : s +:+ a = s +:+ b -> a = b.
Proof. induction s as [|c s IH]; cbn; [trivial|]. intros [= H]. exact (IH H). Qed.

(** No core asset has the URL of the offline page. *)
Lemma offline_url_not_core env path :
  JsString.includes "#" (worker_dir env) = false ->
  In path CORE_ASSETS ->
  Url.key false (url (new_Request env OFFLINE_URL))
  <> Url.key false (url (new_Request env path)).
Proof.
  intros Hdir Hin. unfold Url.key, new_Request, OFFLINE_URL.
  cbn [url].
  repeat (destruct Hin as [<-|Hin]; [
    cbn [Url.resolve]; rewrite !(before_append "#" _ _ Hdir);
    intros E; apply append_inj_l in E; discriminate E |]).
  destruct Hin.
Qed.

End UrlFacts.

(** X3. The offline page is not among the assets install caches.  When the
    worker's directory URL has no fragment and the storage holds no entry
    for the offline page, it still holds none after install, whether the
    install succeeded or not; an HTML request that then misses the cache
    while the network is down is answered with the literal offline text,
    not with an offline page. *)
Theorem offline_page_not_precached (env : Env) (w : World) :
  JsString.includes "#" (worker_dir env) = false ->
  Storage.match_ false (caches w) (new_Request env OFFLINE_URL) = None ->
  let installed := world_of (install env w) in
  Storage.match_ false (caches installed) (new_Request env OFFLINE_URL) = None /\
  forall env' request accept,
    worker_dir env' = worker_dir env ->
    Storage.match_ true (caches installed) request = None ->
    network env' request = None ->
    headers request !! "accept" = Some accept ->
    JsString.includes "text/html" accept = true ->
    cacheFirstStrategy request env' installed
    = (Fulfilled (Some offline_message), installed, [Fetch request]).
Proof.
  intros Hdir Hnone installed.
  assert (Hafter : Storage.match_ false (caches installed) (new_Request env OFFLINE_URL) = None).
  { subst installed. destruct (existsb (asset_fails env) CORE_ASSETS) eqn:E.
    - assert (Hex : exists path, In path CORE_ASSETS /\ asset_fails env path = true)
        by (apply existsb_exists; exact E).
      unfold install. run_promise.
      rewrite (cache_addAll_rejects env CACHE_NAME CORE_ASSETS _ E). cbn.
      rewrite storage_match_open. exact Hnone.
    - destruct (install_success_run env w E) as (rs & _ & Hrel & ->).
      unfold world_of. cbn [fst snd caches].
      rewrite storage_match_update_keep, storage_match_open; [exact Hnone|].
      intros c. apply put_all_match_other. intros k r Hin.
      destruct (written_entry_inv env CORE_ASSETS rs k r Hrel Hin) as (path & Hp & -> & _).
      apply offline_url_not_core; assumption. }
  split; [exact Hafter|].
  intros env' request accept Hsame Hmiss Hnet Hacc Hhtml.
  rewrite (cacheFirst_fallback_ladder env' installed request accept Hmiss Hnet Hacc), Hhtml.
  assert (E : new_Request env' OFFLINE_URL = new_Request env OFFLINE_URL)
    by (unfold new_Request; rewrite Hsame; reflexivity).
  rewrite E, Hafter. reflexivity.
Qed.

Lemma offline_page_not_precached_witness :
  JsString.includes "#" (worker_dir Samples.online) = false /\
  Storage.match_ false (caches Samples.fresh) (new_Request Samples.online OFFLINE_URL) = None /\
  cacheFirstStrategy (Samples.get "https://calc.example/app/help.html" (Some "text/html") "document")
    Samples.offline (world_of (install Samples.online Samples.fresh))
  = (Fulfilled (Some offline_message), world_of (install Samples.online Samples.fresh),
     [Fetch (Samples.get "https://calc.example/app/help.html" (Some "text/html") "document")]).
Proof.
  assert (H1 : JsString.includes "#" (worker_dir Samples.online) = false)
    by (vm_compute; reflexivity).
  assert (H2 : Storage.match_ false (caches Samples.fresh)
                 (new_Request Samples.online OFFLINE_URL) = None) by reflexivity.
  split; [exact H1|]. split; [exact H2|].
  apply (proj2 (offline_page_not_precached Samples.online Samples.fresh H1 H2)
           Samples.offline _ "text/html").
  - reflexivity.
  - vm_compute; reflexivity.
  - reflexivity.
  - vm_compute; reflexivity.
  - vm_compute; reflexivity.
Defined.

(** ** Periodic refresh *)

(** X4. Unlike install, the periodic refresh does not catch a failure: when
    a core asset fails, [updateCache] rejects, so the host is told; nothing
    is logged and nothing is written into the current cache (which is
    created if it was missing). *)
Theorem updateCache_failure_propagates (env : Env) (w : World) :
  (exists path, In path CORE_ASSETS /\ asset_fails env path = true) ->
  updateCache env w =
  (Rejected TypeError,
   {| caches := Storage.open CACHE_NAME (caches w); localStorage := localStorage w |},
   List.map Fetch (core_requests env)) /\
  onPeriodicSync true "update-cache" = Some updateCache /\
  current_store (world_of (updateCache env w)) = current_store w.
Proof.
  intros Hex. apply existsb_exists in Hex.
  assert (Hrun : updateCache env w =
    (Rejected TypeError,
     {| caches := Storage.open CACHE_NAME (caches w); localStorage := localStorage w |},
     List.map Fetch (core_requests env))).
  { unfold updateCache. run_promise.
    rewrite (cache_addAll_rejects env CACHE_NAME CORE_ASSETS _ Hex). reflexivity. }
  split; [exact Hrun|]. split; [reflexivity|].
  rewrite Hrun. unfold current_store, world_of. cbn [fst snd caches].
  rewrite lookup_open. reflexivity.
Qed.

Lemma updateCache_failure_propagates_witness :
  (exists path, In path CORE_ASSETS /\ asset_fails Samples.icon_missing path = true) /\
  outcome (updateCache Samples.icon_missing Samples.installed) = Rejected TypeError /\
  current_store (world_of (updateCache Samples.icon_missing Samples.installed))
  = current_store Samples.installed.
Proof.
  assert (H : exists path, In path CORE_ASSETS /\ asset_fails Samples.icon_missing path = true).
  { exists "./icon.png". split; [cbn; tauto | vm_compute; reflexivity]. }
  split; [exact H|].
  destruct (updateCache_failure_propagates Samples.icon_missing Samples.installed H)
    as (Hrun & _ & Hcur).
  split; [rewrite Hrun; reflexivity | exact Hcur].
Defined.

(** X5. When every core asset is served, the periodic refresh requests each
    of them once and fulfils.  Afterwards the current cache answers the
    request of every core asset with the response the network gave now, and
    answers every other URL exactly as it did before: the refresh replaces
    the core assets in place and deletes nothing else. *)
Theorem updateCache_refreshes_in_place (env : Env) (w : World) :
  existsb (asset_fails env) CORE_ASSETS = false ->
  let run := updateCache env w in
  outcome run = Fulfilled tt /\
  events run = List.map Fetch (core_requests env) /\
  (forall path, In path CORE_ASSETS ->
     exists path' r,
       In path' CORE_ASSETS /\
       Url.key false (url (new_Request env path)) = Url.key false (url (new_Request env path')) /\
       network env (new_Request env path') = Some r /\
       CacheOps.match_ false (current_store (world_of run)) (new_Request env path) = Some r) /\
  (forall q,
     (forall path, In path CORE_ASSETS ->
        Url.key false (url q) <> Url.key false (url (new_Request env path))) ->
     CacheOps.match_ false (current_store (world_of run)) q
     = CacheOps.match_ false (current_store w) q).
Proof.
  intros Hok run.
  destruct (cache_addAll_succeeds env CACHE_NAME CORE_ASSETS
              {| caches := Storage.open CACHE_NAME (caches w);
                 localStorage := localStorage w |} Hok) as (rs & Hrs & Hrel & Hrun).
  assert (Hrun' : run =
    (Fulfilled tt,
     {| caches := Storage.update CACHE_NAME
                    (fun c => put_all c (combine (core_requests env) rs))
                    (Storage.open CACHE_NAME (caches w));
        localStorage := localStorage w |},
     List.map Fetch (core_requests env))).
  { subst run. unfold updateCache. run_promise. rewrite Hrun. cbn. reflexivity. }
  rewrite Hrun'. unfold outcome, events, world_of, current_store.
  cbn [fst snd caches].
  rewrite (lookup_update CACHE_NAME _ _ _ (lookup_open CACHE_NAME (caches w))).
  cbn [default].
  split; [reflexivity|]. split; [reflexivity|]. split.
  - intros path Hpath. apply populated_cache; assumption.
  - intros q Hq. apply put_all_match_other. intros k r Hin.
    destruct (written_entry_inv env CORE_ASSETS rs k r Hrel Hin) as (path & Hp & -> & _).
    apply Hq. exact Hp.
Qed.

Lemma updateCache_refreshes_in_place_witness :
  existsb (asset_fails Samples.online) CORE_ASSETS = false /\
  CacheOps.match_ false
    (current_store (world_of (updateCache Samples.online Samples.api_cached)))
    (Samples.get "https://calc.example/app/api/rates?base=eur" None "")
  = Some (Samples.ok "eur").
Proof.
  assert (H1 : existsb (asset_fails Samples.online) CORE_ASSETS = false)
    by (vm_compute; reflexivity).
  split; [exact H1|].
  pose proof (updateCache_refreshes_in_place Samples.online Samples.api_cached H1) as H.
  cbv zeta in H. destruct H as (_ & _ & _ & Hkeep).
  rewrite Hkeep; [vm_compute; reflexivity|].
  intros path Hin.
  repeat (destruct Hin as [<-|Hin]; [vm_compute; discriminate|]). destruct Hin.
Defined.

(** ** Activation, in general *)

Section ActivateRun.

(** The run of activation on any storage. *)
Lemma activate_run (env : Env) (w : World) :
  activate env w =
  (Fulfilled tt,
   {| caches := List.filter is_current (caches w); localStorage := localStorage w |},
   List.map CachesDelete (stale (Storage.names (caches w))) ++ [ClientsClaim]).
Proof.
  unfold activate. run_promise.
  destruct (all_delete_if_stale env (Storage.names (caches w)) w) as [results ->].
  cbn. rewrite delete_stale_keeps_current. reflexivity.
Qed.

Lemma filter_current_names cs name :
  In name (Storage.names (List.filter is_current cs)) -> name = CACHE_NAME.
Proof.
  unfold Storage.names. rewrite in_map_iff. intros ([n c] & <- & Hin).
  apply filter_In in Hin as [_ H]. apply String.eqb_eq in H. exact H.
Qed.

Lemma stale_none names :
  (forall name, In name names -> name = CACHE_NAME) -> stale names = [].
Proof.
  induction names as [|n names IH]; [reflexivity|].
  intros H. unfold stale. cbn [List.filter].
  rewrite (H n (or_introl eq_refl)), String.eqb_refl. cbn [negb].
  apply IH. intros name Hin. apply H. right. exact Hin.
Qed.

Lemma stale_all names :
  ~ In CACHE_NAME names -> stale names = names.
Proof.
  induction names as [|n names IH]; [reflexivity|].
  intros H. unfold stale. cbn [List.filter].
  destruct (String.eqb n CACHE_NAME) eqn:E.
  - apply String.eqb_eq in E. exfalso. apply H. left. exact E.
  - cbn [negb]. f_equal. apply IH. intros Hin. apply H. right. exact Hin.
Qed.

Lemma filter_current_idem cs :
  List.filter is_current (List.filter is_current cs) = List.filter is_current cs.
Proof.
  induction cs as [|e cs IH]; [reflexivity|].
  cbn [List.filter]. destruct (is_current e) eqn:E; [|exact IH].
  cbn [List.filter]. rewrite E, IH. reflexivity.
Qed.

End ActivateRun.

(** X6. Activation on any cache storage, with or without the current cache
    in it: every cache it leaves is named by the current version tag and the
    current cache keeps its contents; when the storage did not hold the
    current cache, every cache is deleted and the storage is left empty.
    The clients are claimed in either case and the promise fulfils. *)
Theorem activate_any_storage (env : Env) (w : World) :
  let run := activate env w in
  outcome run = Fulfilled tt /\
  only_current (world_of run) /\
  current_store (world_of run) = current_store w /\
  In ClientsClaim (events run) /\
  (~ In CACHE_NAME (Storage.names (caches w)) ->
   caches (world_of run) = [] /\
   events run = List.map CachesDelete (Storage.names (caches w)) ++ [ClientsClaim]).
Proof.
  intros run. subst run. rewrite activate_run.
  unfold outcome, world_of, events, only_current, current_store.
  cbn [fst snd caches].
  split; [reflexivity|]. split; [apply filter_current_names|].
  split; [rewrite lookup_filter_current; reflexivity|].
  split; [apply in_app_iff; right; left; reflexivity|].
  intros Hno. rewrite (filter_current_absent _ Hno), (stale_all _ Hno).
  split; reflexivity.
Qed.

(** X7. Activation is idempotent: activating again, right after an
    activation, deletes nothing and changes nothing; it only claims the
    clients. *)
Theorem activate_idempotent (env env' : Env) (w : World) :
  let activated := world_of (activate env w) in
  activate env' activated = (Fulfilled tt, activated, [ClientsClaim]).
Proof.
  intros activated. subst activated. rewrite (activate_run env w).
  unfold world_of. cbn [fst snd]. rewrite activate_run. cbn [caches localStorage].
  rewrite filter_current_idem, (stale_none _ (filter_current_names (caches w))).
  reflexivity.
Qed.

(** ** What the handlers never do to the cache storage *)

Ltac keeps_other :=
  first [ apply keeps_other_caches_same; reflexivity
        | apply keeps_other_caches_open; reflexivity
        | eapply keeps_other_caches_update; reflexivity ].

(** X8. Apart from activation, no handler deletes a cache, creates a cache
    other than the current one, or alters the contents of a cache other
    than the current one: this holds for both fetch strategies, install, the
    periodic refresh, the message handler and the sync flush, from any state
    and whatever the network answers. *)
Theorem handlers_keep_other_caches (env : Env) (w : World) :
  (forall request, keeps_other_caches w (world_of (cacheFirstStrategy request env w))) /\
  (forall request, keeps_other_caches w (world_of (networkThenCache request env w))) /\
  keeps_other_caches w (world_of (install env w)) /\
  keeps_other_caches w (world_of (updateCache env w)) /\
  (forall event, keeps_other_caches w (world_of (onMessage event env w))) /\
  keeps_other_caches w (world_of (syncCalculations env w)).
Proof.
  split; [|split; [|split; [|split; [|split]]]].
  - intros request. unfold cacheFirstStrategy. run_promise.
    destruct (Storage.match_ true (caches w) request); [keeps_other|].
    destruct (network env request) as [response|]; cbn.
    + destruct (negb (status response =? 200) || negb (String.eqb (type response) "basic"));
        cbn; try keeps_other.
      destruct (CacheOps.put_accepts request response); cbn; keeps_other.
    + destruct (headers request !! "accept") as [accept|]; cbn; [|keeps_other].
      destruct (JsString.includes "text/html" accept); cbn; [keeps_other|].
      destruct (String.eqb (destination request) "image"); cbn; keeps_other.
  - intros request. unfold networkThenCache. run_promise.
    destruct (network env request) as [response|]; cbn; [|keeps_other].
    destruct (CacheOps.put_accepts request response); cbn; keeps_other.
  - destruct (existsb (asset_fails env) CORE_ASSETS) eqn:E.
    + unfold install. run_promise.
      rewrite (cache_addAll_rejects env CACHE_NAME CORE_ASSETS _ E). cbn. keeps_other.
    + destruct (install_success_run env w E) as (rs & _ & _ & ->). keeps_other.
  - unfold updateCache. run_promise.
    destruct (existsb (asset_fails env) CORE_ASSETS) eqn:E.
    + rewrite (cache_addAll_rejects env CACHE_NAME CORE_ASSETS _ E). cbn. keeps_other.
    + destruct (cache_addAll_succeeds env CACHE_NAME CORE_ASSETS
                  {| caches := Storage.open CACHE_NAME (caches w);
                     localStorage := localStorage w |} E) as (rs & _ & _ & ->).
      cbn. keeps_other.
  - intros event. unfold onMessage. run_promise.
    destruct (has_type event "SKIP_WAITING"); destruct (has_type event "GET_CACHE_INFO");
      cbn; try keeps_other; destruct (ports event); cbn; keeps_other.
  - unfold syncCalculations. run_promise.
    destruct (localStorage w) as [items|] eqn:Hls; cbn; [|keeps_other].
    destruct (JSON_parse env _) as [pending|]; cbn; [|keeps_other].
    destruct (length_is_zero pending) as [[|]|]; cbn; try keeps_other.
    rewrite Hls. cbn. keeps_other.
Qed.

Lemma activate_any_storage_witness :
  ~ In CACHE_NAME (Storage.names [("calculator-offline-v1", @nil (Request * Response))]) /\
  caches (world_of (activate Samples.offline
                      {| caches := [("calculator-offline-v1", [])]; localStorage := None |}))
  = [].
Proof.
  assert (H : ~ In CACHE_NAME (Storage.names [("calculator-offline-v1", @nil (Request * Response))])).
  { cbn. intros [H|[]]. discriminate H. }
  split; [exact H|].
  pose proof (activate_any_storage Samples.offline
                {| caches := [("calculator-offline-v1", [])]; localStorage := None |}) as R.
  cbv zeta in R. destruct R as (_ & _ & _ & _ & R).
  exact (proj1 (R H)).
Defined.

(** ** Network first, when the network answers *)

(** X9. When the network answers an API request, the network-first strategy
    returns that response as it is, after exactly one network request and
    even if the caches hold an entry for the request.  It has no test of
    cacheability of its own: whatever the status or type of the response, a
    write into the current cache is started, and the response is stored
    under the request whenever the cache accepts the write (an http(s) GET
    request, a status other than 206, no [Vary: *]); a refused write is
    dropped and leaves the cache contents as they were. *)
Theorem networkThenCache_online (env : Env) (w : World) (request : Request) (response : Response) :
  network env request = Some response ->
  let run := networkThenCache request env w in
  outcome run = Fulfilled (Some response) /\
  events run = [Fetch request] /\
  localStorage (world_of run) = localStorage w /\
  (CacheOps.put_accepts request response = true ->
   caches (world_of run) =
     Storage.update CACHE_NAME (fun c => CacheOps.put c request response)
       (Storage.open CACHE_NAME (caches w)) /\
   In (request, response) (current_store (world_of run)) /\
   CacheOps.match_ false (current_store (world_of run)) request = Some response) /\
  (CacheOps.put_accepts request response = false ->
   caches (world_of run) = Storage.open CACHE_NAME (caches w) /\
   current_store (world_of run) = current_store w).
Proof.
  intros Hnet run. subst run. unfold networkThenCache. run_promise.
  rewrite Hnet. cbn.
  destruct (CacheOps.put_accepts request response) eqn:Hput; cbn;
    (split; [reflexivity|]); (split; [reflexivity|]); (split; [reflexivity|]); split;
    try discriminate; intros _; (split; [reflexivity|]); unfold current_store; cbn [caches].
  - rewrite (lookup_update CACHE_NAME _ _ _ (lookup_open CACHE_NAME (caches w))).
    cbn [default]. split; [apply In_cache_put|].
    apply cache_match_put. eapply put_accepts_no_star. exact Hput.
  - rewrite lookup_open. reflexivity.
Qed.

Lemma networkThenCache_online_witness :
  network
    {| network := fun _ => Some (new_Response_init "down" 503 "Unavailable");
       worker_dir := Samples.dir; JSON_parse := Samples.parse |}
    Samples.api_call = Some (new_Response_init "down" 503 "Unavailable") /\
  CacheOps.put_accepts Samples.api_call (new_Response_init "down" 503 "Unavailable") = true /\
  CacheOps.match_ false
    (current_store (world_of (networkThenCache Samples.api_call
       {| network := fun _ => Some (new_Response_init "down" 503 "Unavailable");
          worker_dir := Samples.dir; JSON_parse := Samples.parse |} Samples.fresh)))
    Samples.api_call
  = Some (new_Response_init "down" 503 "Unavailable").
Proof.
  split; [reflexivity|]. split; [reflexivity|].
  pose proof (networkThenCache_online
                {| network := fun _ => Some (new_Response_init "down" 503 "Unavailable");
                   worker_dir := Samples.dir; JSON_parse := Samples.parse |}
                Samples.fresh Samples.api_call _ eq_refl) as H.
  cbv zeta in H. destruct H as (_ & _ & _ & H & _).
  exact (proj2 (proj2 (H eq_refl))).
Defined.



(** ** Cache first, over several requests *)



(** ** The fetch listener and its strategies *)

(** X12. The promise the fetch listener hands to [respondWith] rejects in
    one situation only: a static request (not an API request) without an
    accept header that misses the cache while the network is down; the
    error is then a TypeError.  In every other case the promise fulfils. *)
Theorem respondWith_rejects_only_without_accept
    (env : Env) (w : World) (request : Request)
    (answer : Promise (option Response)) (e : Error) :
  onFetch request = Some answer ->
  outcome (answer env w) = Rejected e ->
  e = TypeError /\
  headers request !! "accept" = None /\
  ~ JsString.Contains "/api/" (url request) /\
  Storage.match_ true (caches w) request = None /\
  network env request = None.
Proof.
  unfold onFetch.
  destruct (negb (String.eqb (method request) "GET")); [discriminate|].
  destruct (JsString.startsWith "chrome-extension://" (url request)); [discriminate|].
  destruct (JsString.includes "/api/" (url request)) eqn:Hapi; intros [= <-].
  - unfold networkThenCache. run_promise.
    destruct (network env request) as [response|]; cbn;
      [destruct (CacheOps.put_accepts request response); cbn|]; discriminate.
  - apply includes_false in Hapi. unfold cacheFirstStrategy. run_promise.
    destruct (Storage.match_ true (caches w) request); [discriminate|].
    destruct (network env request) as [response|]; cbn.
    + destruct (negb (status response =? 200) || negb (String.eqb (type response) "basic"));
        cbn; try discriminate.
      destruct (CacheOps.put_accepts request response); cbn; discriminate.
    + destruct (headers request !! "accept") as [accept|]; cbn.
      * destruct (JsString.includes "text/html" accept); cbn; [discriminate|].
        destruct (String.eqb (destination request) "image"); cbn; discriminate.
      * intros [= <-]. repeat split. exact Hapi.
Qed.

Lemma respondWith_rejects_only_without_accept_witness :
  onFetch Samples.picture_no_accept = Some (cacheFirstStrategy Samples.picture_no_accept) /\
  outcome (cacheFirstStrategy Samples.picture_no_accept Samples.offline Samples.fresh)
  = Rejected TypeError /\
  headers Samples.picture_no_accept !! "accept" = None.
Proof.
  assert (H1 : onFetch Samples.picture_no_accept
               = Some (cacheFirstStrategy Samples.picture_no_accept)) by reflexivity.
  assert (H2 : outcome (cacheFirstStrategy Samples.picture_no_accept Samples.offline
                          Samples.fresh) = Rejected TypeError) by reflexivity.
  split; [exact H1|]. split; [exact H2|].
  exact (proj1 (proj2 (respondWith_rejects_only_without_accept Samples.offline Samples.fresh
                         Samples.picture_no_accept _ TypeError H1 H2))).
Defined.




(** X14. The image rung of the fallback ladder can leave the caller without
    a response: for an image request whose accept header does not mention
    HTML, failing both in the cache and on the network, the strategy fulfils
    with the result of looking up the worker's [./icon.png] by its exact
    URL, which is no response at all when that icon is not cached. *)
Theorem image_fallback_without_placeholder
    (env : Env) (w : World) (request : Request) (accept : string) :
  Storage.match_ true (caches w) request = None ->
  network env request = None ->
  headers request !! "accept" = Some accept ->
  JsString.includes "text/html" accept = false ->
  destination request = "image" ->
  Storage.match_ false (caches w) (new_Request env "./icon.png") = None ->
  cacheFirstStrategy request env w = (Fulfilled None, w, [Fetch request]).
Proof.
  intros Hmiss Hnet Hacc Hhtml Hdest Hicon.
  rewrite (cacheFirst_fallback_ladder env w request accept Hmiss Hnet Hacc).
  rewrite Hhtml, Hdest, Hicon. reflexivity.
Qed.

Lemma image_fallback_without_placeholder_witness :
  Storage.match_ true (caches Samples.fresh) Samples.picture = None /\
  network Samples.offline Samples.picture = None /\
  Storage.match_ false (caches Samples.fresh) (new_Request Samples.offline "./icon.png") = None /\
  cacheFirstStrategy Samples.picture Samples.offline Samples.fresh
  = (Fulfilled None, Samples.fresh, [Fetch Samples.picture]).
Proof.
  split; [reflexivity|]. split; [reflexivity|]. split; [reflexivity|].
  apply (image_fallback_without_placeholder Samples.offline Samples.fresh
           Samples.picture "image/*"); reflexivity.
Defined.

(** ** Background sync, at its edges *)

(** X18. Whatever the scope provides, whatever is stored and whatever the
    parser makes of it, the flush touches nothing but the pending queue: the
    cache storage and every other key of [localStorage] are left as they
    were, a scope without [localStorage] is left without, and the only call
    the flush can make is the one write of the empty array. *)
Theorem sync_touches_only_queue (env : Env) (w : World) :
  let run := syncCalculations env w in
  caches (world_of run) = caches w /\
  (forall key, key <> "pendingCalculations" ->
     (localStorage (world_of run) ≫= lookup key) = (localStorage w ≫= lookup key)) /\
  (is_Some (localStorage (world_of run)) <-> is_Some (localStorage w)) /\
  (events run = [] \/ events run = [SetItem "pendingCalculations" "[]"]).
Proof.
  intros run. subst run. destruct w as [cs [items|]];
    unfold syncCalculations; run_promise; cbn; [|tauto].
  destruct (JSON_parse env _) as [pending|]; cbn; [|tauto].
  destruct (length_is_zero pending) as [[|]|]; cbn; try tauto.
  split; [reflexivity|]. split; [|split; [split; eauto | right; reflexivity]].
  intros key Hkey. apply lookup_insert_ne. congruence.
Qed.

(** ** Messages, at their edges *)

(** X19. A message that is not a cache-info request never touches the
    state and never gets a reply: a SKIP_WAITING message requests promotion
    past the waiting state, once; a message of any other type, or without
    data, does nothing at all. *)
Theorem message_without_cache_info (env : Env) (w : World) (event : MessageEvent) :
  data_type event <> Some "GET_CACHE_INFO" ->
  onMessage event env w =
  (Fulfilled tt, w,
   if bool_decide (data_type event = Some "SKIP_WAITING") then [SkipWaiting] else []).
Proof.
  intros Hne. unfold onMessage, has_type.
  destruct (data_type event) as [t|] eqn:Ht.
  - destruct (String.eqb t "GET_CACHE_INFO") eqn:E1.
    { apply String.eqb_eq in E1. congruence. }
    destruct (String.eqb t "SKIP_WAITING") eqn:E2.
    + apply String.eqb_eq in E2. subst t. run_promise. destruct w; reflexivity.
    + apply String.eqb_neq in E2. run_promise.
      rewrite bool_decide_eq_false_2 by congruence. destruct w; reflexivity.
  - run_promise. destruct w; reflexivity.
Qed.

Lemma message_without_cache_info_witness :
  Some "SKIP_WAITING" <> Some "GET_CACHE_INFO" /\
  onMessage {| data_type := Some "SKIP_WAITING"; ports := [] |} Samples.offline Samples.installed
  = (Fulfilled tt, Samples.installed, [SkipWaiting]).
Proof.
  assert (H : Some "SKIP_WAITING" <> Some "GET_CACHE_INFO") by discriminate.
  split; [exact H|].
  exact (message_without_cache_info Samples.offline Samples.installed
           {| data_type := Some "SKIP_WAITING"; ports := [] |} H).
Defined.

(** X20. A cache-info request that comes without a reply port is dropped
    silently: the failure of [event.ports[0].postMessage] stays inside the
    detached promise, so no reply is posted, nothing is logged and the
    handler itself completes; the only trace is that the current cache has
    been created if it was missing. *)
Theorem cache_info_without_port (env : Env) (w : World) :
  onMessage {| data_type := Some "GET_CACHE_INFO"; ports := [] |} env w =
  (Fulfilled tt,
   {| caches := Storage.open CACHE_NAME (caches w); localStorage := localStorage w |},
   []).
Proof.
  unfold onMessage, has_type. cbn [data_type ports].
  change (String.eqb "GET_CACHE_INFO" "SKIP_WAITING") with false.
  change (String.eqb "GET_CACHE_INFO" "GET_CACHE_INFO") with true.
  run_promise. reflexivity.
Qed.

(** ** Push notifications *)

Section PushFacts.


End PushFacts.



(** X22. The push listener fails in exactly two cases, both before any
    notification is shown: the payload is not JSON (a SyntaxError), or it is
    the JSON value [null] (a TypeError).  A push without payload never
    fails. *)
Theorem push_fails_only_on_bad_payload (env : Env) (payload : option string) (e : Error) :
  onPush payload env = Rejected e <->
  exists text,
    payload = Some text /\
    ((JSON_parse env text = None /\ e = SyntaxError) \/
     (JSON_parse env text = Some JNull /\ e = TypeError)).
Proof.
  unfold onPush. split.
  - destruct payload as [text|]; [|discriminate].
    destruct (JSON_parse env text) as [value|] eqn:Hparse.
    + destruct value; try discriminate. cbn. intros [= <-].
      exists text. split; [reflexivity|]. right. split; [exact Hparse | reflexivity].
    + intros [= <-]. exists text. split; [reflexivity|]. left.
      split; [exact Hparse | reflexivity].
  - intros (text & -> & [[-> ->]|[-> ->]]); reflexivity.
Qed.

(** ** Notification clicks *)

Section ClickFacts.

Lemma focus_existing_Some clients target client :
  focus_existing clients target = Some client ->
  exists before after,
    clients = before ++ client :: after /\
    url_is client target = true /\ can_focus client = true /\
    forall c, In c before -> url_is c target && can_focus c = false.
Proof.
  induction clients as [|c0 clients IH]; [discriminate|].
  cbn [focus_existing]. destruct (url_is c0 target && can_focus c0) eqn:E.
  - intros [= <-]. apply andb_true_iff in E as [E1 E2].
    exists [], clients. repeat split; try assumption. intros c [].
  - intros H. destruct (IH H) as (before & after & -> & H1 & H2 & H3).
    exists (c0 :: before), after. repeat split; try assumption.
    intros c [<-|Hc]; [exact E | apply H3; exact Hc].
Qed.

Lemma focus_existing_None clients target :
  focus_existing clients target = None <->
  forall c, In c clients -> url_is c target && can_focus c = false.
Proof.
  induction clients as [|c0 clients IH]; cbn [focus_existing].
  - split; [intros _ c [] | reflexivity].
  - destruct (url_is c0 target && can_focus c0) eqn:E; split.
    + discriminate.
    + intros H. specialize (H c0 (or_introl eq_refl)). congruence.
    + intros H c [<-|Hc]; [exact E | apply IH; assumption].
    + intros H. apply IH. intros c Hc. apply H. right. exact Hc.
Qed.

End ClickFacts.

(** X23. A click on a notification always closes it first and then makes at
    most one more call.  That call focuses a window only if the window's
    URL is exactly the notification's URL and the window can be focused, and
    then it is the first such window in the order the host lists them; it
    opens a new window, on the notification's URL, only if no listed window
    qualifies and the host can open windows; otherwise nothing follows. *)
Theorem notification_click_calls
    (clients : list WindowClient) (target : JSON) (openWindow : bool) :
  exists rest,
    onNotificationClick clients target openWindow = NotificationClose :: rest /\
    (List.length rest <= 1)%nat /\
    (forall client, In (ClientFocus client) rest ->
       exists before after,
         clients = before ++ client :: after /\
         url_is client target = true /\ can_focus client = true /\
         forall c, In c before -> url_is c target && can_focus c = false) /\
    (forall t, In (OpenWindow t) rest ->
       t = target /\ openWindow = true /\
       forall c, In c clients -> url_is c target && can_focus c = false) /\
    (rest = [] ->
       openWindow = false /\
       forall c, In c clients -> url_is c target && can_focus c = false).
Proof.
  unfold onNotificationClick.
  destruct (focus_existing clients target) as [client|] eqn:E.
  - exists [ClientFocus client]. split; [reflexivity|]. split; [cbn; lia|].
    split; [|split].
    + intros c [[= <-]|[]]. apply focus_existing_Some. exact E.
    + intros t [H|[]]. discriminate H.
    + discriminate.
  - pose proof (proj1 (focus_existing_None clients target) E) as Hnone.
    destruct openWindow.
    + exists [OpenWindow target]. split; [reflexivity|]. split; [cbn; lia|].
      split; [|split].
      * intros c [H|[]]. discriminate H.
      * intros t [[= <-]|[]]. repeat split. exact Hnone.
      * discriminate.
    + exists []. split; [reflexivity|]. split; [cbn; lia|].
      split; [|split].
      * intros c [].
      * intros t [].
      * intros _. split; [reflexivity | exact Hnone].
Qed.

(** X24. The default notification never finds its window.  A push without
    payload keeps the relative URL "./" in the notification; the click
    listener compares it with the windows' URLs as strings, so as long as no
    window's URL is literally "./" (they are absolute URLs) the click
    focuses no window and opens a new one, even when the application is
    already open. *)
Theorem default_notification_opens_new_window
    (env : Env) (clients : list WindowClient) (n : Push.Notification) :
  onPush None env = Fulfilled n ->
  (forall c, In c clients -> client_url c <> "./") ->
  onNotificationClick clients (Push.data_url (Push.options n)) true
  = [NotificationClose; OpenWindow (JString "./")].
Proof.
  intros [= <-] Habs. cbn [Push.data_url Push.options or_else].
  unfold onNotificationClick.
  assert (H : focus_existing clients (JString "./") = None).
  { apply focus_existing_None. intros c Hc. apply andb_false_iff. left.
    cbn. apply String.eqb_neq. apply Habs. exact Hc. }
  rewrite H. reflexivity.
Qed.

Lemma default_notification_opens_new_window_witness :
  (forall c, In c [ {| client_url := "https://calc.example/app/"; can_focus := true |} ] ->
             client_url c <> "./") /\
  onNotificationClick [ {| client_url := "https://calc.example/app/"; can_focus := true |} ]
    (JString "./") true
  = [NotificationClose; OpenWindow (JString "./")].
Proof.
  assert (H : forall c,
             In c [ {| client_url := "https://calc.example/app/"; can_focus := true |} ] ->
             client_url c <> "./").
  { intros c [<-|[]]. discriminate. }
  split; [exact H|].
  exact (default_notification_opens_new_window Samples.offline _ _ eq_refl H).
Defined.

(** ** A new generation, from install to the first requests *)

Section GenerationFacts.

Lemma update_app_absent name f cs c :
  Storage.lookup name cs = None ->
  Storage.update name f (cs ++ [(name, c)]) = cs ++ [(name, f c)].
Proof.
  induction cs as [|[n c0] cs IH]; cbn.
  - rewrite String.eqb_refl. reflexivity.
  - destruct (String.eqb n name); [discriminate|]. intros H. rewrite (IH H). reflexivity.
Qed.

Lemma filter_current_last cs c :
  ~ In CACHE_NAME (Storage.names cs) ->
  List.filter is_current (cs ++ [(CACHE_NAME, c)]) = [(CACHE_NAME, c)].
Proof.
  intros H. rewrite List.filter_app, (filter_current_absent cs H). cbn.
  unfold is_current. cbn. reflexivity.
Qed.

Lemma put_fresh c k r :
  (forall e, In e c -> CacheOps.matches false k e = false) ->
  CacheOps.put c k r = c ++ [(k, r)].
Proof.
  intros H. unfold CacheOps.put. f_equal. apply forallb_filter_id.
  apply forallb_forall. intros e He. rewrite (H e He). reflexivity.
Qed.

Lemma put_all_fresh c es :
  List.NoDup (List.map (fun e => Url.key false (url (fst e))) (c ++ es)) ->
  put_all c es = c ++ es.
Proof.
  revert c. induction es as [|[k r] es IH]; intros c Hnd; cbn [put_all].
  - rewrite app_nil_r. reflexivity.
  - assert (Hc : CacheOps.put c k r = c ++ [(k, r)]).
    { apply put_fresh. intros e He. apply matches_other_key. intros E.
      rewrite map_app in Hnd. cbn [List.map fst] in Hnd.
      apply NoDup_remove_2 in Hnd. apply Hnd. apply in_app_iff. left.
      apply in_map_iff. exists e. split; [symmetry; exact E | exact He]. }
    rewrite Hc, IH; rewrite <- app_assoc; [reflexivity | exact Hnd].
Qed.

(** In a cache whose entries have pairwise different URLs (query strings
    ignored), an entry without a Vary header answers every query for its
    URL. *)
Lemma served_distinct es q k r :
  List.NoDup (List.map (fun e => Url.key true (url (fst e))) es) ->
  vary r = [] ->
  In (k, r) es ->
  Url.key true (url q) = Url.key true (url k) ->
  CacheOps.match_ true es q = Some r.
Proof.
  induction es as [|[k0 r0] es IH]; [intros _ _ []|].
  cbn [List.map fst CacheOps.match_]. intros Hnd Hv Hin Hkey.
  apply List.NoDup_cons_iff in Hnd as [Hk0 Hnd].
  destruct Hin as [[= -> ->]|Hin];
    [rewrite (matches_no_vary true q k r Hv Hkey); reflexivity|].
  destruct (CacheOps.matches true q (k0, r0)) eqn:E; [|apply IH; assumption].
  exfalso. apply Hk0. apply matches_key in E. cbn [fst] in E. rewrite <- E, Hkey.
  apply in_map_iff. exists (k, r). split; [reflexivity | exact Hin].
Qed.

Lemma combine_requests (env : Env) paths rs :
  Forall2 (fun path r => network env (new_Request env path) = Some r) paths rs ->
  List.map fst (combine (List.map (new_Request env) paths) rs)
  = List.map (new_Request env) paths.
Proof. induction 1; cbn; [|f_equal]; trivial. Qed.

Lemma written_entry_response (env : Env) paths rs path r :
  Forall2 (fun path r => network env (new_Request env path) = Some r) paths rs ->
  network env (new_Request env path) = Some r ->
  In path paths ->
  In (new_Request env path, r) (combine (List.map (new_Request env) paths) rs).
Proof.
  induction 1 as [|p r0 ps rs' Hp Hrel IH]; [intros _ []|].
  intros Hnet [->|Hin]; cbn.
  - left. congruence.
  - right. apply IH; assumption.
Qed.

Lemma append_NoDup s l : List.NoDup l -> List.NoDup (List.map (String.append s) l).
Proof.
  induction 1 as [|a l Ha Hl IH]; cbn; constructor; [|exact IH].
  intros Hin. apply in_map_iff in Hin as (b & Hb & Hin).
  apply append_inj_l in Hb. subst b. exact (Ha Hin).
Qed.

(** The core assets have pairwise different URLs, query strings ignored,
    when the worker's directory URL has neither query nor fragment. *)
Lemma core_keys_distinct (env : Env) :
  JsString.includes "#" (worker_dir env) = false ->
  JsString.includes "?" (worker_dir env) = false ->
  List.NoDup (List.map (fun q => Url.key true (url q)) (core_requests env)).
Proof.
  intros Hf Hq.
  assert (E : List.map (fun q => Url.key true (url q)) (core_requests env) =
              List.map (String.append (worker_dir env))
                [ ""; "index.html"; "manifest.json"; "icon.png";
                  "icon-192.png"; "icon-512.png"; "font-awesome.css" ]).
  { unfold core_requests, CORE_ASSETS, Url.key, new_Request. cbn [List.map url Url.resolve].
    rewrite !(before_append "#" _ _ Hf). cbn [JsString.before Ascii.eqb Bool.eqb].
    rewrite !(before_append "?" _ _ Hq). reflexivity. }
  rewrite E. apply append_NoDup.
  repeat constructor; cbn; intuition discriminate.
Qed.

End GenerationFacts.

(** X25. A new generation, end to end.  Take a storage that does not yet
    hold the current cache and a worker directory URL without query or
    fragment.  After an install whose assets were all served, followed by
    activation, the storage holds the current cache and nothing else, and
    the cache holds exactly the core assets.  A request for the URL of a
    core asset whose response carries no Vary header, with any query string
    and any headers, is then answered with the very response the network
    gave for that asset at install, without a network request and whatever
    older generations had cached. *)
Theorem new_generation_serves_installed_assets
    (env env1 env2 : Env) (w : World) (path : string) (r : Response) :
  JsString.includes "#" (worker_dir env) = false ->
  JsString.includes "?" (worker_dir env) = false ->
  ~ In CACHE_NAME (Storage.names (caches w)) ->
  existsb (asset_fails env) CORE_ASSETS = false ->
  In path CORE_ASSETS ->
  network env (new_Request env path) = Some r ->
  vary r = [] ->
  let live := world_of (activate env1 (world_of (install env w))) in
  Storage.names (caches live) = [CACHE_NAME] /\
  CacheOps.keys (current_store live) = core_requests env /\
  forall request,
    Url.key true (url request) = Url.key true (url (new_Request env path)) ->
    cacheFirstStrategy request env2 live = (Fulfilled (Some r), live, []).
Proof.
  intros Hf Hq Hno Hok Hpath Hnet Hvary live.
  destruct (install_success_run env w Hok) as (rs & _ & Hrel & Hrun).
  pose proof (combine_requests env CORE_ASSETS rs Hrel) as Hkeys.
  fold (core_requests env) in Hkeys.
  set (es := combine (core_requests env) rs) in *.
  assert (Hdistinct : List.NoDup (List.map (fun e => Url.key true (url (fst e))) es)).
  { rewrite <- (map_map fst (fun q => Url.key true (url q))), Hkeys.
    apply core_keys_distinct; assumption. }
  assert (Hes : put_all [] es = es).
  { rewrite put_all_fresh; [reflexivity|]. cbn [app].
    apply (NoDup_map_inv (JsString.before "?")). rewrite map_map. exact Hdistinct. }
  assert (Hlive : caches live = [(CACHE_NAME, es)]).
  { subst live. rewrite Hrun. unfold world_of at 2. cbn [fst snd].
    rewrite activate_run. unfold world_of. cbn [fst snd caches].
    pose proof (proj2 (lookup_None_names CACHE_NAME (caches w)) Hno) as Hnone.
    unfold Storage.open. rewrite Hnone, (update_app_absent _ _ _ _ Hnone), Hes.
    apply filter_current_last. exact Hno. }
  split; [rewrite Hlive; reflexivity|].
  split; [unfold current_store; rewrite Hlive; exact Hkeys|].
  intros request Hkey. apply cacheFirst_served. rewrite Hlive. cbn [Storage.match_].
  pose proof (written_entry_response env CORE_ASSETS rs path r Hrel Hnet Hpath) as Hin.
  fold (core_requests env) in Hin. fold es in Hin.
  rewrite (served_distinct es request _ r Hdistinct Hvary Hin Hkey). reflexivity.
Qed.

Lemma new_generation_serves_installed_assets_witness :
  JsString.includes "#" (worker_dir Samples.online) = false /\
  JsString.includes "?" (worker_dir Samples.online) = false /\
  ~ In CACHE_NAME
      (Storage.names [("calculator-offline-v1",
                       [(Samples.get "https://calc.example/app/index.html" None "",
                         Samples.ok "page v1")])]) /\
  existsb (asset_fails Samples.online) CORE_ASSETS = false /\
  outcome
    (cacheFirstStrategy Samples.page_query Samples.offline
       (world_of (activate Samples.offline
          (world_of (install Samples.online
             {| caches := [("calculator-offline-v1",
                            [(Samples.get "https://calc.example/app/index.html" None "",
                              Samples.ok "page v1")])];
                localStorage := None |})))))
  = Fulfilled (Some (Samples.ok "https://calc.example/app/index.html")).
Proof.
  assert (H1 : JsString.includes "#" (worker_dir Samples.online) = false)
    by (vm_compute; reflexivity).
  assert (H2 : JsString.includes "?" (worker_dir Samples.online) = false)
    by (vm_compute; reflexivity).
  assert (H3 : ~ In CACHE_NAME
                 (Storage.names [("calculator-offline-v1",
                                  [(Samples.get "https://calc.example/app/index.html" None "",
                                    Samples.ok "page v1")])])).
  { cbn. intros [H|[]]. discriminate H. }
  assert (H4 : existsb (asset_fails Samples.online) CORE_ASSETS = false)
    by (vm_compute; reflexivity).
  assert (H5 : In "./index.html" CORE_ASSETS) by (cbn; tauto).
  split; [exact H1|]. split; [exact H2|]. split; [exact H3|]. split; [exact H4|].
  pose proof (new_generation_serves_installed_assets Samples.online Samples.offline
                Samples.offline
                {| caches := [("calculator-offline-v1",
                               [(Samples.get "https://calc.example/app/index.html" None "",
                                 Samples.ok "page v1")])];
                   localStorage := None |}
                "./index.html" (Samples.ok "https://calc.example/app/index.html")
                H1 H2 H3 H4 H5 eq_refl eq_refl) as R.
  cbv zeta in R. destruct R as (_ & _ & R).
  rewrite (R Samples.page_query); [reflexivity|]. vm_compute; reflexivity.
Defined.
